(** * codex-switcher: the account and usage synchronisation engine

    A shallow embedding of [src/hooks/useAccounts.ts], of the handlers of
    [src/components/AddAccountModal.tsx] and of the polling effects of
    [src/App.tsx], with the properties of the engine proved over it; and,
    around the engine, of the handlers and views of [App], [AccountCard]
    and [UsageBar], of the notification settings form and of the theme
    provider.

    Asynchronous functions are embedded as values of a small free monad
    [Task]: a task updates React state through functional setters, awaits
    commands of the Tauri backend, writes to the console and may start
    another task without awaiting it.  Two interpreters give tasks their
    meaning: [run] answers every command at the moment it is issued, and
    [advance] stops at the first pending command, so that the state a
    continuation resumes in may differ from the state the call started in. *)

From Stdlib Require Import List NArith ZArith Bool String Ascii Lia PrimFloat
  FloatOps SpecFloat Permutation.
Import ListNotations.

Set Implicit Arguments.

(** ** JavaScript strings *)

(** A JavaScript string is a sequence of UTF-16 code units. *)
Definition js_string := list N.

(** Literals of the source, all of them ASCII. *)
Definition str (s : string) : js_string :=
  map N_of_ascii (list_ascii_of_string s).

(** [a === b] on strings. *)
Fixpoint strict_eq (a b : js_string) : bool :=
  match a, b with
  | [], [] => true
  | x :: a', y :: b' => N.eqb x y && strict_eq a' b'
  | _, _ => false
  end.

(** ECMAScript [WhiteSpace] and [LineTerminator] code points, the ones
    [String.prototype.trim] strips; all of them are single code units. *)
Definition isWhiteSpace (c : N) : bool :=
  (N.eqb c 9 || N.eqb c 10 || N.eqb c 11 || N.eqb c 12 || N.eqb c 13
   || N.eqb c 32 || N.eqb c 160 || N.eqb c 5760
   || (N.leb 8192 c && N.leb c 8202)
   || N.eqb c 8232 || N.eqb c 8233 || N.eqb c 8239 || N.eqb c 8287
   || N.eqb c 12288 || N.eqb c 65279)%bool.

Fixpoint trimStart (s : js_string) : js_string :=
  match s with
  | [] => []
  | c :: s' => if isWhiteSpace c then trimStart s' else s
  end.

Definition trimEnd (s : js_string) : js_string := rev (trimStart (rev s)).

Definition trim (s : js_string) : js_string := trimEnd (trimStart s).

(** Truthiness of a string: only the empty string is falsy. *)
Definition truthy (s : js_string) : bool :=
  match s with [] => false | _ :: _ => true end.

(** ** Types matching the backend (types.ts) *)

Definition number := float.

Inductive AuthMode := api_key | chat_gpt.

Record AccountInfo := {
  id : js_string;
  name : js_string;
  email : option js_string;
  plan_type : option js_string;
  auth_mode : AuthMode;
  is_active : bool;
  created_at : js_string;
  last_used_at : option js_string
}.

Record UsageInfo := {
  account_id : js_string;
  usage_plan_type : option js_string;
  primary_used_percent : option number;
  primary_window_minutes : option number;
  primary_resets_at : option number;
  secondary_used_percent : option number;
  secondary_window_minutes : option number;
  secondary_resets_at : option number;
  has_credits : option bool;
  unlimited_credits : option bool;
  credits_balance : option js_string;
  error : option js_string
}.

Record OAuthLoginInfo := {
  auth_url : js_string;
  callback_port : number
}.

(** [AccountWithUsage extends AccountInfo] with two optional fields; an
    absent field and a field holding [undefined] are both [None]. *)
Record AccountWithUsage := {
  info : AccountInfo;
  usage : option UsageInfo;
  usageLoading : option bool
}.

Record CodexProcessInfo := {
  count : number;
  can_switch : bool;
  pids : list number
}.

(** The object spread [{ ...a }] of an [AccountInfo]. *)
Definition spread (a : AccountInfo) : AccountWithUsage :=
  {| info := a; usage := None; usageLoading := None |}.

Definition with_usage (a : AccountWithUsage) (u : option UsageInfo) :=
  {| info := info a; usage := u; usageLoading := usageLoading a |}.

Definition with_usageLoading (a : AccountWithUsage) (b : bool) :=
  {| info := info a; usage := usage a; usageLoading := Some b |}.

(** ** Thrown values *)

(** What a rejected promise carries: an [Error] object with its message,
    or any other value, given by its [String(...)] rendering. *)
Inductive js_error :=
| ErrorObject (message : js_string)
| Thrown (rendering : js_string).

(** [err instanceof Error ? err.message : String(err)] *)
Definition error_text (err : js_error) : js_string :=
  match err with
  | ErrorObject m => m
  | Thrown r => r
  end.

(** A settled promise. *)
Inductive Result (T : Type) :=
| Resolved (v : T)
| Rejected (e : js_error).
Arguments Rejected {T} e.

(** ** Commands of the backend *)

(** The commands the front end sends with [invoke], and the opener
    plugin's [openUrl]. *)
Inductive Command :=
| list_accounts
| refresh_all_accounts_usage
| get_usage (accountId : js_string)
| switch_account (accountId : js_string)
| delete_account (accountId : js_string)
| rename_account (accountId newName : js_string)
| add_account_from_file (path name : js_string)
| start_login (accountName : js_string)
| complete_login
| cancel_login
| check_codex_processes
| openUrl (url : js_string).

(** The type argument of [invoke<T>]: what each command answers. *)
Definition answer (c : Command) : Type :=
  match c with
  | list_accounts => list AccountInfo
  | refresh_all_accounts_usage => list UsageInfo
  | get_usage _ => UsageInfo
  | add_account_from_file _ _ => AccountInfo
  | start_login _ => OAuthLoginInfo
  | complete_login => AccountInfo
  | check_codex_processes => CodexProcessInfo
  | switch_account _ | delete_account _ | rename_account _ _
  | cancel_login | openUrl _ => unit
  end.

(** What an execution leaves behind, in order. *)
Inductive Event :=
| Called (c : Command)
| Logged (label : js_string) (e : js_error)
| Unhandled (e : js_error).

(** ** Tasks *)

Inductive Task (S A : Type) : Type :=
| Return (a : A)
| Throw (e : js_error)
| Invoke (c : Command) (k : Result (answer c) -> Task S A)
| Update (f : S -> S) (k : Task S A)
| Log (label : js_string) (e : js_error) (k : Task S A)
| Spawn (p : Task S unit) (k : Task S A).

Arguments Return {S A} a.
Arguments Throw {S A} e.

Section Combinators.
Context {S : Type}.

Fixpoint bind {A B : Type} (p : Task S A) (f : A -> Task S B) : Task S B :=
  match p with
  | Return a => f a
  | Throw e => Throw e
  | Invoke c k => Invoke c (fun r => bind (k r) f)
  | Update g k => Update g (bind k f)
  | Log l e k => Log l e (bind k f)
  | Spawn q k => Spawn q (bind k f)
  end.

(** [try { p } catch (err) { h err }] *)
Fixpoint try_catch {A : Type} (p : Task S A) (h : js_error -> Task S A) : Task S A :=
  match p with
  | Return a => Return a
  | Throw e => h e
  | Invoke c k => Invoke c (fun r => try_catch (k r) h)
  | Update g k => Update g (try_catch k h)
  | Log l e k => Log l e (try_catch k h)
  | Spawn q k => Spawn q (try_catch k h)
  end.

(** [try { p } finally { f }], for a [finally] block that completes
    normally. *)
Definition try_finally {A : Type} (p : Task S A) (f : Task S unit) : Task S A :=
  bind (try_catch (bind p (fun a => Return (Resolved a)))
                  (fun e => Return (Rejected e)))
       (fun r => bind f (fun _ =>
          match r with
          | Resolved a => Return a
          | Rejected e => Throw e
          end)).

(** [await invoke(c)]: a rejection is thrown at the [await]. *)
Definition invoke (c : Command) : Task S (answer c) :=
  Invoke c (fun r =>
    match r with
    | Resolved v => Return v
    | Rejected e => Throw e
    end).

Definition set_state (f : S -> S) : Task S unit := Update f (Return tt).

Definition console_error (label : js_string) (e : js_error) : Task S unit :=
  Log label e (Return tt).

(** A call of an async function whose promise is dropped. *)
Definition detached (p : Task S unit) : Task S unit := Spawn p (Return tt).
End Combinators.

Declare Scope task_scope.
Delimit Scope task_scope with task.
Notation "x <- p ;; q" := (bind p (fun x => q))
  (at level 61, p at next level, right associativity) : task_scope.
Notation "p ;; q" := (bind p (fun _ => q))
  (at level 61, right associativity) : task_scope.
Open Scope task_scope.

(** A task of a component run inside a larger state, through a lens. *)
Fixpoint zoom {S W A : Type} (get : W -> S) (set : S -> W -> W) (p : Task S A)
  : Task W A :=
  match p with
  | Return a => Return a
  | Throw e => Throw e
  | Invoke c k => Invoke c (fun r => zoom get set (k r))
  | Update f k => Update (fun w => set (f (get w)) w) (zoom get set k)
  | Log l e k => Log l e (zoom get set k)
  | Spawn q k => Spawn (zoom get set q) (zoom get set k)
  end.

(** ** Interpreters *)

(** A promise nobody awaits reports its rejection to the runtime. *)
Definition unhandled {A : Type} (o : Result A) : list Event :=
  match o with
  | Resolved _ => []
  | Rejected e => [Unhandled e]
  end.

Record Ran (S G A : Type) := {
  outcome : Result A;
  final : S;
  backend : G;
  trace : list Event
}.

Section Run.
Variables S G : Type.
(** The backend: any state [G], any answer to any command. *)
Variable gateway : forall c : Command, G -> Result (answer c) * G.

(** Every command is answered when it is issued. *)
Fixpoint run {A : Type} (p : Task S A) (s : S) (g : G) (tr : list Event)
  : Ran S G A :=
  match p with
  | Return a => {| outcome := Resolved a; final := s; backend := g; trace := tr |}
  | Throw e => {| outcome := Rejected e; final := s; backend := g; trace := tr |}
  | Invoke c k =>
      let rg := gateway c g in
      run (k (fst rg)) s (snd rg) (tr ++ [Called c])
  | Update f k => run k (f s) g tr
  | Log l e k => run k s g (tr ++ [Logged l e])
  | Spawn q k =>
      let r := run q s g tr in
      run k (final r) (backend r) (trace r ++ unhandled (outcome r))
  end.
End Run.

Arguments run {S G} gateway {A} p s g tr.

(** A task stopped at its first pending command, or settled. *)
Inductive Step (S A : Type) :=
| Settled (o : Result A)
| Pending (c : Command) (k : Result (answer c) -> Task S A).
Arguments Settled {S A} o.

(** A task started without [await] that is waiting for the backend. *)
Record Background (S : Type) := {
  bg_command : Command;
  bg_resume : Result (answer bg_command) -> Task S unit
}.

Record Advanced (S A : Type) := {
  reached : Step S A;
  current : S;
  emitted : list Event;
  spawned : list (Background S)
}.

Definition background {S : Type} (st : Step S unit) : list (Background S) :=
  match st with
  | Settled _ => []
  | Pending c k => [{| bg_command := c; bg_resume := k |}]
  end.

Definition unhandled_step {S : Type} (st : Step S unit) : list Event :=
  match st with
  | Settled o => unhandled o
  | Pending _ _ => []
  end.

(** The synchronous part of a task: everything up to its first
    [await] of the backend. *)
Fixpoint advance {S A : Type} (p : Task S A) (s : S) : Advanced S A :=
  match p with
  | Return a =>
      {| reached := Settled (Resolved a); current := s; emitted := []; spawned := [] |}
  | Throw e =>
      {| reached := Settled (Rejected e); current := s; emitted := []; spawned := [] |}
  | Invoke c k =>
      {| reached := Pending c k; current := s; emitted := [Called c]; spawned := [] |}
  | Update f k => advance k (f s)
  | Log l e k =>
      let r := advance k s in
      {| reached := reached r; current := current r;
         emitted := Logged l e :: emitted r; spawned := spawned r |}
  | Spawn q k =>
      let rq := advance q s in
      let rk := advance k (current rq) in
      {| reached := reached rk; current := current rk;
         emitted := emitted rq ++ unhandled_step (reached rq) ++ emitted rk;
         spawned := spawned rq ++ background (reached rq) ++ spawned rk |}
  end.

(** ** [Map] of the standard library of JavaScript *)

Section JsMap.
Variable V : Type.

(** Entries in insertion order, keys distinct. *)
Definition Map := list (js_string * V).

Fixpoint Map_set (m : Map) (k : js_string) (v : V) : Map :=
  match m with
  | [] => [(k, v)]
  | (k', v') :: m' =>
      if strict_eq k' k then (k', v) :: m' else (k', v') :: Map_set m' k v
  end.

(** [new Map(entries)]: the entries are set one after the other. *)
Definition Map_new (entries : list (js_string * V)) : Map :=
  fold_left (fun m kv => Map_set m (fst kv) (snd kv)) entries [].

Fixpoint Map_get (m : Map) (k : js_string) : option V :=
  match m with
  | [] => None
  | (k', v) :: m' => if strict_eq k' k then Some v else Map_get m' k
  end.
End JsMap.

(** ** The hook [useAccounts] *)

Module Hook.

Record State := {
  accounts : list AccountWithUsage;
  loading : bool;
  error : option js_string
}.

(** The state of the first render. *)
Definition initial : State :=
  {| accounts := []; loading := true; error := None |}.

Definition setAccounts (f : list AccountWithUsage -> list AccountWithUsage)
  : Task State unit :=
  set_state (fun s =>
    {| accounts := f (accounts s); loading := loading s; error := error s |}).

Definition setLoading (b : bool) : Task State unit :=
  set_state (fun s =>
    {| accounts := accounts s; loading := b; error := error s |}).

Definition setError (e : option js_string) : Task State unit :=
  set_state (fun s =>
    {| accounts := accounts s; loading := loading s; error := e |}).

(** *** The functional updates handed to [setAccounts] *)

(** [usageMap.get(a.id)] on a map whose values may be [undefined]. *)
Definition usageMap_get (usageMap : Map (option UsageInfo)) (k : js_string)
  : option UsageInfo :=
  match Map_get usageMap k with
  | Some u => u
  | None => None
  end.

(** loadAccounts, lines 22-28 *)
Definition preserve_update (accountList : list AccountInfo)
  (prev : list AccountWithUsage) : list AccountWithUsage :=
  let usageMap := Map_new (map (fun a => (id (info a), usage a)) prev) in
  map (fun a => with_usage (spread a) (usageMap_get usageMap (id a)))
      accountList.

(** loadAccounts, line 30 *)
Definition replace_update (accountList : list AccountInfo)
  (_ : list AccountWithUsage) : list AccountWithUsage :=
  map spread accountList.

(** refreshUsage, lines 42-47 *)
Definition overlay_update (usageList : list UsageInfo)
  (prev : list AccountWithUsage) : list AccountWithUsage :=
  map (fun account =>
         let usage :=
           find (fun u => strict_eq (account_id u) (id (info account)))
                usageList in
         {| info := info account; usage := usage; usageLoading := Some false |})
      prev.

(** refreshSingleUsage, lines 56-60 *)
Definition mark_loading (accountId : js_string)
  (prev : list AccountWithUsage) : list AccountWithUsage :=
  map (fun a =>
         if strict_eq (id (info a)) accountId
         then with_usageLoading a true else a)
      prev.

(** refreshSingleUsage, lines 62-66 *)
Definition store_usage (accountId : js_string) (usage : UsageInfo)
  (prev : list AccountWithUsage) : list AccountWithUsage :=
  map (fun a =>
         if strict_eq (id (info a)) accountId
         then {| info := info a; usage := Some usage; usageLoading := Some false |}
         else a)
      prev.

(** refreshSingleUsage, lines 69-73 *)
Definition clear_loading (accountId : js_string)
  (prev : list AccountWithUsage) : list AccountWithUsage :=
  map (fun a =>
         if strict_eq (id (info a)) accountId
         then with_usageLoading a false else a)
      prev.

Section Callbacks.
(** [isTauri()]: whether the page runs inside the Tauri shell. *)
Variable isTauri : bool.

Definition loadAccounts (preserveUsage : bool) : Task State unit :=
  if negb isTauri then setLoading false
  else
    try_finally
      (try_catch
         (setLoading true ;;
          setError None ;;
          accountList <- invoke list_accounts ;;
          if preserveUsage
          then setAccounts (preserve_update accountList)
          else setAccounts (replace_update accountList))
         (fun err => setError (Some (error_text err))))
      (setLoading false).

Definition refreshUsage : Task State unit :=
  try_catch
    (usageList <- invoke refresh_all_accounts_usage ;;
     setAccounts (overlay_update usageList))
    (fun err =>
       console_error (str "Failed to refresh usage:") err ;;
       Throw err).

Definition refreshSingleUsage (accountId : js_string) : Task State unit :=
  try_catch
    (setAccounts (mark_loading accountId) ;;
     usage <- invoke (get_usage accountId) ;;
     setAccounts (store_usage accountId usage))
    (fun err =>
       console_error (str "Failed to refresh single usage:") err ;;
       setAccounts (clear_loading accountId) ;;
       Throw err).

Definition switchAccount (accountId : js_string) : Task State unit :=
  try_catch
    (invoke (switch_account accountId) ;;
     loadAccounts true)
    (fun err => Throw err).

Definition deleteAccount (accountId : js_string) : Task State unit :=
  try_catch
    (invoke (delete_account accountId) ;;
     loadAccounts false)
    (fun err => Throw err).

Definition renameAccount (accountId newName : js_string) : Task State unit :=
  try_catch
    (invoke (rename_account accountId newName) ;;
     loadAccounts true)
    (fun err => Throw err).

Definition importFromFile (path name : js_string) : Task State unit :=
  try_catch
    (invoke (add_account_from_file path name) ;;
     loadAccounts false ;;
     refreshUsage)
    (fun err => Throw err).

Definition startOAuthLogin (accountName : js_string)
  : Task State OAuthLoginInfo :=
  try_catch
    (info <- invoke (start_login accountName) ;;
     Return info)
    (fun err => Throw err).

Definition completeOAuthLogin : Task State AccountInfo :=
  try_catch
    (account <- invoke complete_login ;;
     loadAccounts false ;;
     refreshUsage ;;
     Return account)
    (fun err => Throw err).

Definition cancelOAuthLogin : Task State unit :=
  try_catch
    (invoke cancel_login)
    (fun err => console_error (str "Failed to cancel login:") err).
End Callbacks.

End Hook.

(** ** The component [AddAccountModal] *)

Module Modal.

Inductive Tab := oauth | import.

Record State := {
  activeTab : Tab;
  name : js_string;
  filePath : js_string;
  loading : bool;
  error : option js_string;
  oauthPending : bool
}.

(** The state of the first render. *)
Definition initial : State :=
  {| activeTab := oauth; name := []; filePath := []; loading := false;
     error := None; oauthPending := false |}.

Definition isPrimaryDisabled (m : State) : bool :=
  loading m || (match activeTab m with oauth => true | import => false end
                && oauthPending m).

(** The states of the login flow, read off the two flags of the modal. *)
Inductive Session := Idle | Requesting | PendingLogin.

Definition session (m : State) : Session :=
  if oauthPending m then PendingLogin
  else if loading m then Requesting
  else Idle.

(** [AddAccountModalProps], without [isOpen]. *)
Record Props (W : Type) := {
  onClose : Task W unit;
  onImportFile : js_string -> js_string -> Task W unit;
  onStartOAuth : js_string -> Task W OAuthLoginInfo;
  onCompleteOAuth : Task W unit;
  onCancelOAuth : Task W unit
}.

Section Component.
(** The state of the page the modal is mounted in, and where the
    modal's own state sits in it. *)
Variable W : Type.
Variable get : W -> State.
Variable set : State -> W -> W.
Variable props : Props W.

Definition setter (f : State -> State) : Task W unit :=
  set_state (fun w => set (f (get w)) w).

Definition setActiveTab (t : Tab) := setter (fun m =>
  {| activeTab := t; name := name m; filePath := filePath m;
     loading := loading m; error := error m; oauthPending := oauthPending m |}).
Definition setName (n : js_string) := setter (fun m =>
  {| activeTab := activeTab m; name := n; filePath := filePath m;
     loading := loading m; error := error m; oauthPending := oauthPending m |}).
Definition setFilePath (f : js_string) := setter (fun m =>
  {| activeTab := activeTab m; name := name m; filePath := f;
     loading := loading m; error := error m; oauthPending := oauthPending m |}).
Definition setLoading (b : bool) := setter (fun m =>
  {| activeTab := activeTab m; name := name m; filePath := filePath m;
     loading := b; error := error m; oauthPending := oauthPending m |}).
Definition setError (e : option js_string) := setter (fun m =>
  {| activeTab := activeTab m; name := name m; filePath := filePath m;
     loading := loading m; error := e; oauthPending := oauthPending m |}).
Definition setOauthPending (b : bool) := setter (fun m =>
  {| activeTab := activeTab m; name := name m; filePath := filePath m;
     loading := loading m; error := error m; oauthPending := b |}).

Definition resetForm : Task W unit :=
  setName [] ;;
  setFilePath [] ;;
  setError None ;;
  setLoading false ;;
  setOauthPending false.

(** The handlers close over the state of the render that created
    them: [m] is that state. *)
Definition handleClose (m : State) : Task W unit :=
  (if oauthPending m then detached (onCancelOAuth props) else Return tt) ;;
  resetForm ;;
  onClose props.

Definition handleOAuthLogin (m : State) : Task W unit :=
  if negb (truthy (trim (name m)))
  then setError (Some (str "Please enter an account name"))
  else
    try_catch
      (setLoading true ;;
       setError None ;;
       info <- onStartOAuth props (trim (name m)) ;;
       setOauthPending true ;;
       setLoading false ;;
       invoke (openUrl (auth_url info)) ;;
       onCompleteOAuth props ;;
       handleClose m)
      (fun err =>
         setError (Some (error_text err)) ;;
         setLoading false ;;
         setOauthPending false).

Definition handleImportFile (m : State) : Task W unit :=
  if negb (truthy (trim (name m)))
  then setError (Some (str "Please enter an account name"))
  else if negb (truthy (trim (filePath m)))
  then setError (Some (str "Please select an auth.json file"))
  else
    try_catch
      (setLoading true ;;
       setError None ;;
       onImportFile props (trim (filePath m)) (trim (name m)) ;;
       handleClose m)
      (fun err =>
         setError (Some (error_text err)) ;;
         setLoading false).

(** The [onClick] of the tab buttons, lines 134-147. *)
Definition tab_onClick (m : State) (tab : Tab) : Task W unit :=
  (match tab, oauthPending m with
   | import, true =>
       detached
         (try_catch (onCancelOAuth props)
            (fun err => console_error (str "Failed to cancel login:") err)) ;;
       setOauthPending false ;;
       setLoading false
   | _, _ => Return tt
   end) ;;
  setActiveTab tab ;;
  setError None.
End Component.

End Modal.

(** ** The component [App] *)

Module App.

(** The state the engine works on: the hook's, the modal's, and the
    two pieces of [App]'s own state the engine touches. *)
Record State := {
  hook : Hook.State;
  modal : Modal.State;
  isAddModalOpen : bool;
  processInfo : option CodexProcessInfo
}.

Definition initial : State :=
  {| hook := Hook.initial; modal := Modal.initial;
     isAddModalOpen := false; processInfo := None |}.

Definition set_hook (h : Hook.State) (w : State) : State :=
  {| hook := h; modal := modal w;
     isAddModalOpen := isAddModalOpen w; processInfo := processInfo w |}.

Definition set_modal (m : Modal.State) (w : State) : State :=
  {| hook := hook w; modal := m;
     isAddModalOpen := isAddModalOpen w; processInfo := processInfo w |}.

Definition setIsAddModalOpen (b : bool) : Task State unit :=
  set_state (fun w =>
    {| hook := hook w; modal := modal w;
       isAddModalOpen := b; processInfo := processInfo w |}).

Definition setProcessInfo (p : option CodexProcessInfo) : Task State unit :=
  set_state (fun w =>
    {| hook := hook w; modal := modal w;
       isAddModalOpen := isAddModalOpen w; processInfo := p |}).

(** A callback of the hook, called from the page. *)
Definition of_hook {A : Type} (p : Task Hook.State A) : Task State A :=
  zoom hook set_hook p.

Section Page.
Variable isTauri : bool.

Definition checkProcesses : Task State unit :=
  if negb isTauri then Return tt
  else
    try_catch
      (info <- invoke check_codex_processes ;;
       setProcessInfo (Some info))
      (fun err => console_error (str "Failed to check processes:") err).

(** The props [App] hands to the modal, lines 280-287. *)
Definition modalProps : Modal.Props State :=
  {| Modal.onClose := setIsAddModalOpen false;
     Modal.onImportFile := fun path name =>
       of_hook (Hook.importFromFile isTauri path name);
     Modal.onStartOAuth := fun name => of_hook (Hook.startOAuthLogin name);
     Modal.onCompleteOAuth :=
       of_hook (Hook.completeOAuthLogin isTauri) ;; Return tt;
     Modal.onCancelOAuth := of_hook Hook.cancelOAuthLogin |}.

Definition handleClose := Modal.handleClose modal set_modal modalProps.
Definition handleOAuthLogin := Modal.handleOAuthLogin modal set_modal modalProps.
Definition handleImportFile := Modal.handleImportFile modal set_modal modalProps.
Definition tab_onClick := Modal.tab_onClick modal set_modal modalProps.
End Page.

End App.

(** ** Polling *)

(** A [setInterval(handler, delay)] registered by an effect. *)
Record Interval (S : Type) := {
  delay : N;
  handler : Task S unit
}.

(** A [useEffect]: what it does when it runs and the timers it leaves. *)
Record Effect (S : Type) := {
  mount : Task S unit;
  intervals : list (Interval S)
}.

Module Polling.

Section Effects.
Variable isTauri : bool.

(** useAccounts.ts, lines 195-197:
    [setInterval(() => { refreshUsage().catch(() => {}); }, 60000)] *)
Definition usage_interval : Interval App.State :=
  {| delay := 60000;
     handler :=
       detached (try_catch (App.of_hook Hook.refreshUsage)
                           (fun _ => Return tt)) |}.

(** App.tsx, line 62: [setInterval(checkProcesses, 3000)] *)
Definition process_interval : Interval App.State :=
  {| delay := 3000;
     handler := detached (App.checkProcesses isTauri) |}.

(** useAccounts.ts, lines 191-200 *)
Definition usage_effect : Effect App.State :=
  {| mount :=
       detached (App.of_hook (Hook.loadAccounts isTauri false ;;
                              Hook.refreshUsage));
     intervals := [usage_interval] |}.

(** App.tsx, lines 60-64 *)
Definition process_effect : Effect App.State :=
  {| mount := detached (App.checkProcesses isTauri);
     intervals := [process_interval] |}.

(** The hook is called first in [App], so its effect runs first. *)
Definition effects : list (Effect App.State) :=
  [usage_effect; process_effect].
End Effects.

(** *** A clock for the timers

    Time is counted in milliseconds.  A timer is due whenever the
    clock reaches a multiple of its delay.  [setInterval] itself never
    gives up on a handler; the clock here is harsher on purpose: a round
    that ends in an exception or leaves an unhandled rejection stops
    its timer, so that a loop that keeps firing is a property of its
    handler. *)

Record Timer := {
  timer : Interval App.State;
  rounds : N;
  alive : bool
}.

Record World (G : Type) := {
  clock : N;
  page : App.State;
  remote : G;
  journal : list Event;
  timers : list Timer
}.

Definition is_unhandled (e : Event) : bool :=
  match e with Unhandled _ => true | _ => false end.

Definition clean {A : Type} (r : Result A) (tr : list Event) : bool :=
  match r with
  | Resolved _ => negb (existsb is_unhandled tr)
  | Rejected _ => false
  end.

Definition due (now : N) (t : Timer) : bool :=
  alive t && N.eqb (N.modulo now (delay (timer t))) 0.


Section Clock.
Variable G : Type.
Variable gateway : forall c : Command, G -> Result (answer c) * G.

(** The timers due at [now] fire in the order they were registered. *)
Fixpoint fire (now : N) (ts : list Timer) (w : App.State) (g : G)
  (j : list Event) : list Timer * App.State * G * list Event :=
  match ts with
  | [] => ([], w, g, j)
  | t :: ts' =>
      if due now t then
        let r := run gateway (handler (timer t)) w g [] in
        let t' := {| timer := timer t; rounds := N.succ (rounds t);
                     alive := clean (outcome r) (trace r) |} in
        let '(ts'', w', g', j') :=
          fire now ts' (final r) (backend r) (j ++ trace r) in
        (t' :: ts'', w', g', j')
      else
        let '(ts'', w', g', j') := fire now ts' w g j in
        (t :: ts'', w', g', j')
  end.


(** One millisecond passes. *)
Definition tick (x : World G) : World G :=
  let now := N.succ (clock x) in
  let '(ts, w, g, j) := fire now (timers x) (page x) (remote x) (journal x) in
  {| clock := now; page := w; remote := g; journal := j; timers := ts |}.

Definition elapse (ms : N) (x : World G) : World G :=
  N.iter ms tick x.

Definition arm (i : Interval App.State) : Timer :=
  {| timer := i; rounds := 0; alive := true |}.

(** The effects of the first render run one after the other, each up
    to its first [await]: the calls they send are then all pending. *)
Record Committed := {
  waiting : list (Background App.State);
  page_committed : App.State;
  journal_committed : list Event
}.

Definition commit (es : list (Effect App.State)) (w : App.State)
  : Committed :=
  fold_left
    (fun acc e =>
       let x := advance (mount e) (page_committed acc) in
       {| waiting := waiting acc ++ spawned x ++ background (reached x);
          page_committed := current x;
          journal_committed :=
            journal_committed acc ++ emitted x
            ++ unhandled_step (reached x) |})
    es
    {| waiting := []; page_committed := w; journal_committed := [] |}.

(** The backend answers the pending calls, oldest first; a call that
    awaits again after its answer joins the queue at its end.  [fuel]
    bounds the number of answers. *)
Record Answered (G' : Type) := {
  unanswered : list (Background App.State);
  page_answered : App.State;
  remote_answered : G';
  journal_answered : list Event
}.

Fixpoint settle (fuel : nat) (pool : list (Background App.State))
  (w : App.State) (g : G) (j : list Event) : Answered G :=
  match fuel, pool with
  | S fuel', b :: rest =>
      let rg := gateway (bg_command b) g in
      let x := advance (bg_resume b (fst rg)) w in
      settle fuel' (rest ++ spawned x ++ background (reached x))
             (current x) (snd rg)
             (j ++ emitted x ++ unhandled_step (reached x))
  | _, _ =>
      {| unanswered := pool; page_answered := w; remote_answered := g;
         journal_answered := j |}
  end.

(** The page after the effects of the first render have run and the
    calls they started have been answered.  Three answers are enough: the
    listing, the process check, and the usage refresh that follows the
    listing. *)
Definition mounted (isTauri : bool) (g : G) : World G :=
  let c := commit (effects isTauri) App.initial in
  let r := settle 3 (waiting c) (page_committed c) g (journal_committed c) in
  {| clock := 0; page := page_answered r; remote := remote_answered r;
     journal := journal_answered r;
     timers := map arm (flat_map (@intervals _) (effects isTauri)) |}.
End Clock.

End Polling.

(** ** Resuming a call *)

Definition waiting_for {S A : Type} (x : Advanced S A) : option Command :=
  match reached x with
  | Settled _ => None
  | Pending c _ => Some c
  end.

(** [resume p s r s']: the call [p] starts in state [s] and waits for
    the backend; the backend answers with [r] when the state has become
    [s'], and [p] continues from there up to its next [await] or its end.
    Whatever ran in between is in the difference between [s] and [s']. *)
Definition resume {S A : Type} (p : Task S A) (s : S)
  (r : forall c : Command, Result (answer c)) (s' : S) : Advanced S A :=
  match reached (advance p s) with
  | Settled _ => advance p s
  | Pending c k => advance (k (r c)) s'
  end.

(** ** Sample data *)

Module Sample.

Definition account (i : string) (active : bool) : AccountInfo :=
  {| id := str i; name := str i; email := None; plan_type := None;
     auth_mode := chat_gpt; is_active := active;
     created_at := str "2025-01-01T00:00:00Z"; last_used_at := None |}.

Definition reading (i : string) (percent : number) : UsageInfo :=
  {| account_id := str i; usage_plan_type := None;
     primary_used_percent := Some percent;
     primary_window_minutes := Some 300%float;
     primary_resets_at := None;
     secondary_used_percent := None;
     secondary_window_minutes := None;
     secondary_resets_at := None;
     has_credits := None; unlimited_credits := None;
     credits_balance := None; error := None |}.

Definition entry (i : string) (active : bool) (u : option UsageInfo)
  (l : option bool) : AccountWithUsage :=
  {| info := account i active; usage := u; usageLoading := l |}.

Definition registry (l : list AccountWithUsage) : Hook.State :=
  {| Hook.accounts := l; Hook.loading := false; Hook.error := None |}.

Definition refused : js_error := Thrown (str "backend unavailable").

(** A backend that refuses every command. *)
Definition refuse_all (c : Command) : Result (answer c) := Rejected refused.

(** A backend that answers the batched usage query with [l]. *)
Definition usage_answer (l : list UsageInfo) (c : Command)
  : Result (answer c) :=
  match c with
  | refresh_all_accounts_usage => Resolved l
  | _ => Rejected refused
  end.

(** A backend that answers the single usage query with [u]. *)
Definition single_answer (u : UsageInfo) (c : Command) : Result (answer c) :=
  match c with
  | get_usage _ => Resolved u
  | _ => Rejected refused
  end.

(** A backend that answers the account listing with [l]. *)
Definition list_answer (l : list AccountInfo) (c : Command)
  : Result (answer c) :=
  match c with
  | list_accounts => Resolved l
  | _ => Rejected refused
  end.

(** The same backends for [run]: no state, the same answer each time. *)
Definition stateless (r : forall c : Command, Result (answer c))
  (c : Command) (g : unit) : Result (answer c) * unit := (r c, g).

End Sample.

(** ** The frame property of [refreshAll] as the specification words it *)

Definition absent_ids_keep_snapshot : Prop :=
  forall (s s' : Hook.State) (r : forall c : Command, Result (answer c))
         (usageList : list UsageInfo) (i : nat) (a : AccountWithUsage),
    r refresh_all_accounts_usage = Resolved usageList ->
    nth_error (Hook.accounts s') i = Some a ->
    (forall u, In u usageList -> account_id u <> id (info a)) ->
    option_map usage
      (nth_error (Hook.accounts (current (resume Hook.refreshUsage s r s'))) i)
    = Some (usage a).

(** The hook state with another registry. *)
Definition with_accounts (s : Hook.State) (l : list AccountWithUsage)
  : Hook.State :=
  {| Hook.accounts := l; Hook.loading := Hook.loading s;
     Hook.error := Hook.error s |}.

(** ** The mutation pattern *)

(** The commands a trace sent to the backend, in order. *)
Definition calls (tr : list Event) : list Command :=
  flat_map (fun e => match e with Called c => [c] | _ => [] end) tr.

(** [orchestrates op c reload]: the call [op] first sends the command
    [c], without touching the state; if the backend refuses [c], [op]
    throws the refusal as it came and the state is the one in place; if
    the backend accepts it, [op] goes on exactly as [reload] does. *)
Definition orchestrates (op : Task Hook.State unit) (c : Command)
  (reload : Task Hook.State unit) : Prop :=
  (forall s : Hook.State,
      waiting_for (advance op s) = Some c
      /\ current (advance op s) = s
      /\ emitted (advance op s) = [Called c])
  /\ (forall (s s' : Hook.State) (r : forall c : Command, Result (answer c))
             (e : js_error),
         r c = Rejected e ->
         resume op s r s' =
         {| reached := Settled (Rejected e); current := s';
            emitted := []; spawned := [] |})
  /\ (forall (G : Type) (gateway : forall c : Command, G -> Result (answer c) * G)
             (s : Hook.State) (g : G) (tr : list Event),
         run gateway op s g tr =
         match fst (gateway c g) with
         | Rejected e =>
             {| outcome := Rejected e; final := s;
                backend := snd (gateway c g); trace := tr ++ [Called c] |}
         | Resolved _ =>
             run gateway reload s (snd (gateway c g)) (tr ++ [Called c])
         end).

(** ** Sample pages *)

Module SamplePage.

(** The modal on the OAuth tab, waiting for the browser login of "work". *)
Definition pending_modal : Modal.State :=
  {| Modal.activeTab := Modal.oauth; Modal.name := str "work";
     Modal.filePath := []; Modal.loading := false; Modal.error := None;
     Modal.oauthPending := true |}.

(** The modal at rest, with a name of two spaces and a tab typed in. *)
Definition blank_modal : Modal.State :=
  {| Modal.activeTab := Modal.oauth; Modal.name := [32; 32; 9]%N;
     Modal.filePath := []; Modal.loading := false; Modal.error := None;
     Modal.oauthPending := false |}.

Definition page (m : Modal.State) : App.State :=
  {| App.hook := Sample.registry []; App.modal := m;
     App.isAddModalOpen := true; App.processInfo := None |}.

End SamplePage.

(** ** A loop without its guard *)

(** The usage timer as it would be without [.catch(() => {})]. *)
Definition unguarded_usage_interval : Interval App.State :=
  {| delay := 60000;
     handler := detached (App.of_hook Hook.refreshUsage) |}.

(** ** Resuming, answer after answer *)

(** The call stopped at [x] gets the answer [r] to its pending command
    when the state has become [s'], and goes on to its next [await]. *)
Definition answered {S A : Type} (x : Advanced S A)
  (r : forall c : Command, Result (answer c)) (s' : S) : Advanced S A :=
  match reached x with
  | Settled _ => x
  | Pending c k => advance (k (r c)) s'
  end.

(** Truthiness of a [string | null]. *)
Definition truthy_opt (o : option js_string) : bool :=
  match o with
  | Some s => truthy s
  | None => false
  end.

(** Truthiness of a [boolean | undefined]. *)
Definition truthy_flag (o : option bool) : bool :=
  match o with
  | Some b => b
  | None => false
  end.

(** ** [Set] of the standard library of JavaScript *)

(** The members in insertion order. *)
Definition JsSet := list js_string.

Definition Set_has (s : JsSet) (k : js_string) : bool :=
  existsb (fun x => strict_eq x k) s.

Definition Set_add (s : JsSet) (k : js_string) : JsSet :=
  if Set_has s k then s else s ++ [k].

Definition Set_delete (s : JsSet) (k : js_string) : JsSet :=
  filter (fun x => negb (strict_eq x k)) s.

(** ** What [App] and [UsageBar] choose to show *)

(** App.tsx, lines 110-111 *)
Definition activeAccount (accounts : list AccountWithUsage)
  : option AccountWithUsage :=
  find (fun a => is_active (info a)) accounts.

Definition otherAccounts (accounts : list AccountWithUsage)
  : list AccountWithUsage :=
  filter (fun a => negb (is_active (info a))) accounts.

(** The cards of the page, top to bottom: the "Active Account" section,
    then the "Other Accounts" grid (App.tsx, lines 211-259). *)
Definition cards (accounts : list AccountWithUsage) : list AccountWithUsage :=
  match activeAccount accounts with
  | Some a => a :: otherAccounts accounts
  | None => otherAccounts accounts
  end.

(** The four branches of [<main>] (App.tsx, lines 180-263). *)
Inductive MainView :=
| LoadingAccounts
| LoadFailure (message : js_string)
| NoAccountsYet
| AccountCards (shown : list AccountWithUsage).

Definition mainView (h : Hook.State) : MainView :=
  if Hook.loading h && Nat.eqb (List.length (Hook.accounts h)) 0
  then LoadingAccounts
  else if truthy_opt (Hook.error h)
  then LoadFailure (match Hook.error h with Some m => m | None => [] end)
  else if Nat.eqb (List.length (Hook.accounts h)) 0
  then NoAccountsYet
  else AccountCards (cards (Hook.accounts h)).

(** The branches of [UsageBar]; the bars are given by the two used
    percentages and the credits line. *)
Inductive UsageView :=
| Skeleton
| UsageMessage (text : js_string)
| RateLimits (primary secondary : option number) (credits : option js_string).

Definition usageBar (usage : option UsageInfo) (loading : bool) : UsageView :=
  if loading then Skeleton
  else
    match usage with
    | None => UsageMessage (str "Usage unavailable")
    | Some u =>
        if truthy_opt (error u)
        then UsageMessage (match error u with Some m => m | None => [] end)
        else
          match primary_used_percent u, secondary_used_percent u with
          | None, None => UsageMessage (str "No rate limit data")
          | p, s =>
              RateLimits p s
                (if truthy_opt (credits_balance u) then credits_balance u
                 else None)
          end
    end.

(** ** The component [AccountCard] *)

Module Card.

(** A [Date], by its time value. *)
Definition Date := number.

Record State := {
  isRefreshing : bool;
  lastRefresh : option Date;
  isEditing : bool;
  editName : js_string
}.

(** The state of the first render, at time [now]. *)
Definition initial (now : Date) (account : AccountWithUsage) : State :=
  {| isRefreshing := false;
     lastRefresh :=
       match usage account with
       | Some u => if negb (truthy_opt (error u)) then Some now else None
       | None => None
       end;
     isEditing := false;
     editName := name (info account) |}.

Section Component.
Variable W : Type.
Variable get : W -> State.
Variable set : State -> W -> W.
(** The props the handlers use. *)
Variable account : AccountWithUsage.
Variable onRefresh : Task W unit.
Variable onRename : js_string -> Task W unit.
Variable masked : bool.

Definition setter (f : State -> State) : Task W unit :=
  set_state (fun w => set (f (get w)) w).

Definition setIsRefreshing (b : bool) := setter (fun c =>
  {| isRefreshing := b; lastRefresh := lastRefresh c;
     isEditing := isEditing c; editName := editName c |}).
Definition setLastRefresh (d : option Date) := setter (fun c =>
  {| isRefreshing := isRefreshing c; lastRefresh := d;
     isEditing := isEditing c; editName := editName c |}).
Definition setIsEditing (b : bool) := setter (fun c =>
  {| isRefreshing := isRefreshing c; lastRefresh := lastRefresh c;
     isEditing := b; editName := editName c |}).
Definition setEditName (n : js_string) := setter (fun c =>
  {| isRefreshing := isRefreshing c; lastRefresh := lastRefresh c;
     isEditing := isEditing c; editName := n |}).

(** [now] is what [new Date()] gives when the refresh has come back. *)
Definition handleRefresh (now : Date) : Task W unit :=
  setIsRefreshing true ;;
  try_finally
    (onRefresh ;;
     setLastRefresh (Some now))
    (setIsRefreshing false).

(** [c] is the state of the render the handler closes over. *)
Definition handleRename (c : State) : Task W unit :=
  let trimmed := trim (editName c) in
  (if truthy trimmed && negb (strict_eq trimmed (name (info account)))
   then try_catch (onRename trimmed)
                  (fun _ => setEditName (name (info account)))
   else setEditName (name (info account))) ;;
  setIsEditing false.

Definition handleKeyDown (c : State) (key : js_string) : Task W unit :=
  if strict_eq key (str "Enter") then detached (handleRename c)
  else if strict_eq key (str "Escape")
  then setEditName (name (info account)) ;; setIsEditing false
  else Return tt.

(** The [onClick] of the name, line 158. *)
Definition name_onClick : Task W unit :=
  if negb masked then setIsEditing true else Return tt.

(** The [loading] prop handed to [UsageBar], line 203. *)
Definition usageBar_loading (c : State) : bool :=
  isRefreshing c || truthy_flag (usageLoading account).
End Component.

End Card.

(** ** The handlers of [App] *)

Module Shell.

(** The callbacks [App] hands to [setTimeout]. *)
Inductive TimeoutAction :=
| clearDeleteConfirm
| clearRefreshSuccess.

(** A pending [setTimeout(action, delay)]. *)
Record Timeout := {
  timeout_delay : N;
  timeout_action : TimeoutAction
}.

(** All the state of [App], with the timeouts it has pending. *)
Record State := {
  app : App.State;
  switchingId : option js_string;
  deleteConfirmId : option js_string;
  isRefreshing : bool;
  refreshSuccess : bool;
  maskedAccounts : JsSet;
  timeouts : list Timeout
}.

Definition initial : State :=
  {| app := App.initial; switchingId := None; deleteConfirmId := None;
     isRefreshing := false; refreshSuccess := false; maskedAccounts := [];
     timeouts := [] |}.

Definition set_app (a : App.State) (s : State) : State :=
  {| app := a; switchingId := switchingId s;
     deleteConfirmId := deleteConfirmId s; isRefreshing := isRefreshing s;
     refreshSuccess := refreshSuccess s; maskedAccounts := maskedAccounts s;
     timeouts := timeouts s |}.

Definition with_deleteConfirmId (d : option js_string) (s : State) : State :=
  {| app := app s; switchingId := switchingId s;
     deleteConfirmId := d; isRefreshing := isRefreshing s;
     refreshSuccess := refreshSuccess s; maskedAccounts := maskedAccounts s;
     timeouts := timeouts s |}.

Definition with_refreshSuccess (b : bool) (s : State) : State :=
  {| app := app s; switchingId := switchingId s;
     deleteConfirmId := deleteConfirmId s; isRefreshing := isRefreshing s;
     refreshSuccess := b; maskedAccounts := maskedAccounts s;
     timeouts := timeouts s |}.

Definition with_timeouts (t : list Timeout) (s : State) : State :=
  {| app := app s; switchingId := switchingId s;
     deleteConfirmId := deleteConfirmId s; isRefreshing := isRefreshing s;
     refreshSuccess := refreshSuccess s; maskedAccounts := maskedAccounts s;
     timeouts := t |}.

Definition setSwitchingId (i : option js_string) : Task State unit :=
  set_state (fun s =>
    {| app := app s; switchingId := i;
       deleteConfirmId := deleteConfirmId s; isRefreshing := isRefreshing s;
       refreshSuccess := refreshSuccess s; maskedAccounts := maskedAccounts s;
       timeouts := timeouts s |}).

Definition setDeleteConfirmId (d : option js_string) : Task State unit :=
  set_state (with_deleteConfirmId d).

Definition setIsRefreshing (b : bool) : Task State unit :=
  set_state (fun s =>
    {| app := app s; switchingId := switchingId s;
       deleteConfirmId := deleteConfirmId s; isRefreshing := b;
       refreshSuccess := refreshSuccess s; maskedAccounts := maskedAccounts s;
       timeouts := timeouts s |}).

Definition setRefreshSuccess (b : bool) : Task State unit :=
  set_state (with_refreshSuccess b).

Definition setMaskedAccounts (f : JsSet -> JsSet) : Task State unit :=
  set_state (fun s =>
    {| app := app s; switchingId := switchingId s;
       deleteConfirmId := deleteConfirmId s; isRefreshing := isRefreshing s;
       refreshSuccess := refreshSuccess s;
       maskedAccounts := f (maskedAccounts s);
       timeouts := timeouts s |}).

(** [setTimeout(action, delay)]: the timeout joins the pending ones. *)
Definition setTimeout (action : TimeoutAction) (delay : N) : Task State unit :=
  set_state (fun s =>
    with_timeouts
      (timeouts s ++ [{| timeout_delay := delay; timeout_action := action |}])
      s).

(** What a timeout does when it comes due. *)
Definition act (action : TimeoutAction) (s : State) : State :=
  match action with
  | clearDeleteConfirm => with_deleteConfirmId None s
  | clearRefreshSuccess => with_refreshSuccess false s
  end.

(** The [i]-th pending timeout comes due. *)
Definition expire (i : nat) (s : State) : State :=
  match nth_error (timeouts s) i with
  | Some t =>
      act (timeout_action t)
          (with_timeouts (firstn i (timeouts s) ++ skipn (S i) (timeouts s)) s)
  | None => s
  end.

(** A callback of the hook, called from [App]. *)
Definition of_hook {A : Type} (p : Task Hook.State A) : Task State A :=
  zoom app set_app (App.of_hook p).

(** App.tsx, lines 35-45 *)
Definition toggleMask_update (accountId : js_string) (prev : JsSet) : JsSet :=
  let next := prev in
  if Set_has next accountId
  then Set_delete next accountId
  else Set_add next accountId.

Definition toggleMask (accountId : js_string) : Task State unit :=
  setMaskedAccounts (toggleMask_update accountId).

Section Handlers.
Variable isTauri : bool.

(** [rendered] is the state of the render the handler closes over. *)
Definition handleSwitch (rendered : State) (accountId : js_string)
  : Task State unit :=
  zoom app set_app (App.checkProcesses isTauri) ;;
  if match App.processInfo (app rendered) with
     | Some p => negb (can_switch p)
     | None => false
     end
  then Return tt
  else
    try_finally
      (try_catch
         (setSwitchingId (Some accountId) ;;
          of_hook (Hook.switchAccount isTauri accountId))
         (fun err => console_error (str "Failed to switch account:") err))
      (setSwitchingId None).

Definition handleDelete (rendered : State) (accountId : js_string)
  : Task State unit :=
  if match deleteConfirmId rendered with
     | Some d => negb (strict_eq d accountId)
     | None => true
     end
  then
    setDeleteConfirmId (Some accountId) ;;
    setTimeout clearDeleteConfirm 3000
  else
    try_catch
      (of_hook (Hook.deleteAccount isTauri accountId) ;;
       setDeleteConfirmId None)
      (fun err => console_error (str "Failed to delete account:") err).

Definition handleRefresh : Task State unit :=
  setIsRefreshing true ;;
  setRefreshSuccess false ;;
  try_finally
    (of_hook Hook.refreshUsage ;;
     setRefreshSuccess true ;;
     setTimeout clearRefreshSuccess 2000)
    (setIsRefreshing false).
End Handlers.

End Shell.

(** ** Reload failures *)

(** [hides_reload_failure gateway op c]: whenever the backend accepts
    the command [c] of [op] and then refuses to list the accounts, [op]
    ends normally, with the refusal in the hook's [error] and the registry
    as it was. *)
Definition hides_reload_failure (G : Type)
  (gateway : forall c : Command, G -> Result (answer c) * G)
  (op : Task Hook.State unit) (c : Command) : Prop :=
  forall (s : Hook.State) (g g1 g2 : G) (v : answer c) (e : js_error),
    gateway c g = (Resolved v, g1) ->
    gateway list_accounts g1 = (Rejected e, g2) ->
    let r := run gateway op s g [] in
    outcome r = Resolved tt
    /\ Hook.accounts (final r) = Hook.accounts s
    /\ Hook.error (final r) = Some (error_text e)
    /\ Hook.loading (final r) = false
    /\ trace r = [Called c; Called list_accounts].

(** ** Sample backends with a script *)

Module Script.

(** A backend that answers the [n]-th command it receives with the
    [n]-th entry of a script, when the command is the one the entry
    expects, and refuses anything else. *)
Inductive Entry :=
| Accept (c : Command) (v : answer c)
| Refuse (c : Command) (e : js_error).

Definition expected (x : Entry) : Command :=
  match x with
  | Accept c _ => c
  | Refuse c _ => c
  end.

Definition command_tag (c : Command) : nat :=
  match c with
  | list_accounts => 0
  | refresh_all_accounts_usage => 1
  | get_usage _ => 2
  | switch_account _ => 3
  | delete_account _ => 4
  | rename_account _ _ => 5
  | add_account_from_file _ _ => 6
  | start_login _ => 7
  | complete_login => 8
  | cancel_login => 9
  | check_codex_processes => 10
  | openUrl _ => 11
  end.

(** The answer of an entry, read at the type of the command received;
    commands are matched on their name alone. *)
Definition reply (x : Entry) (c : Command) : Result (answer c) :=
  match x with
  | Refuse c' e =>
      if Nat.eqb (command_tag c') (command_tag c) then Rejected e
      else Rejected Sample.refused
  | Accept c' v =>
      match c', c return answer c' -> Result (answer c) with
      | list_accounts, list_accounts => fun v => Resolved v
      | refresh_all_accounts_usage, refresh_all_accounts_usage =>
          fun v => Resolved v
      | get_usage _, get_usage _ => fun v => Resolved v
      | switch_account _, switch_account _ => fun v => Resolved v
      | delete_account _, delete_account _ => fun v => Resolved v
      | rename_account _ _, rename_account _ _ => fun v => Resolved v
      | add_account_from_file _ _, add_account_from_file _ _ =>
          fun v => Resolved v
      | start_login _, start_login _ => fun v => Resolved v
      | complete_login, complete_login => fun v => Resolved v
      | cancel_login, cancel_login => fun v => Resolved v
      | check_codex_processes, check_codex_processes => fun v => Resolved v
      | openUrl _, openUrl _ => fun v => Resolved v
      | _, _ => fun _ => Rejected Sample.refused
      end v
  end.

Definition backend (c : Command) (script : list Entry)
  : Result (answer c) * list Entry :=
  match script with
  | [] => (Rejected Sample.refused, [])
  | x :: rest => (reply x c, rest)
  end.

End Script.

(** The ids of a registry, in order. *)
Definition ids (l : list AccountWithUsage) : list js_string :=
  map (fun a => id (info a)) l.

(** The modal with another error, and with the form as [resetForm]
    leaves it. *)
Definition with_modal_error (e : option js_string) (m : Modal.State)
  : Modal.State :=
  {| Modal.activeTab := Modal.activeTab m; Modal.name := Modal.name m;
     Modal.filePath := Modal.filePath m; Modal.loading := Modal.loading m;
     Modal.error := e; Modal.oauthPending := Modal.oauthPending m |}.

Definition reset_modal (m : Modal.State) : Modal.State :=
  {| Modal.activeTab := Modal.activeTab m; Modal.name := [];
     Modal.filePath := []; Modal.loading := false;
     Modal.error := None; Modal.oauthPending := false |}.

Module SampleForm.

(** The import tab filled in, with spaces around the name. *)
Definition import_modal : Modal.State :=
  {| Modal.activeTab := Modal.import; Modal.name := str " work ";
     Modal.filePath := str "/home/me/auth.json"; Modal.loading := false;
     Modal.error := None; Modal.oauthPending := false |}.

(** The import tab with a name and no file chosen. *)
Definition no_file_modal : Modal.State :=
  {| Modal.activeTab := Modal.import; Modal.name := str "work";
     Modal.filePath := []; Modal.loading := false;
     Modal.error := None; Modal.oauthPending := false |}.

(** The OAuth tab with a name typed in, at rest. *)
Definition login_modal : Modal.State :=
  {| Modal.activeTab := Modal.oauth; Modal.name := str "work ";
     Modal.filePath := []; Modal.loading := false;
     Modal.error := Some (str "earlier failure");
     Modal.oauthPending := false |}.

(** The import tab filled in while a login started on the other tab is
    still pending. *)
Definition import_while_pending : Modal.State :=
  {| Modal.activeTab := Modal.import; Modal.name := str "work";
     Modal.filePath := str "/home/me/auth.json"; Modal.loading := false;
     Modal.error := None; Modal.oauthPending := true |}.

Definition login_info : OAuthLoginInfo :=
  {| auth_url := str "https://auth.example/authorize";
     callback_port := 1455%float |}.

End SampleForm.

(** A backend that starts the login, opens the browser, and then
    reports that the login was abandoned. *)
Definition abandoned_login (c : Command) : Result (answer c) :=
  match c with
  | start_login _ => Resolved SampleForm.login_info
  | openUrl _ => Resolved tt
  | complete_login => Rejected (ErrorObject (str "login timed out"))
  | _ => Rejected Sample.refused
  end.

(** ** Sample shells *)

Module SampleShell.

Definition busy : CodexProcessInfo :=
  {| count := 2%float; can_switch := false; pids := [101%float; 102%float] |}.

Definition quiet : CodexProcessInfo :=
  {| count := 0%float; can_switch := true; pids := [] |}.

(** [App] with two accounts and the process status of its last render. *)
Definition shell (p : option CodexProcessInfo) : Shell.State :=
  Shell.set_app
    {| App.hook :=
         Sample.registry
           [Sample.entry "A" true (Some (Sample.reading "A" 40%float)) None;
            Sample.entry "B" false None None];
       App.modal := Modal.initial;
       App.isAddModalOpen := false;
       App.processInfo := p |}
    Shell.initial.

End SampleShell.

(** ** A card mounted by [App] *)

Module CardInApp.

(** The hook's state beside the state of one card. *)
Definition State := (Hook.State * Card.State)%type.

Definition set_card (c : Card.State) (w : State) : State := (fst w, c).

Definition of_hook {A : Type} (p : Task Hook.State A) : Task State A :=
  zoom fst (fun h w => (h, snd w)) p.

Section Mounted.
Variable isTauri : bool.
Variable account : AccountWithUsage.

(** App.tsx, lines 221-222 and 247-248: the [onRefresh] and [onRename]
    props of the card of [account]. *)
Definition onRefresh : Task State unit :=
  of_hook (Hook.refreshSingleUsage (id (info account))).

Definition onRename (newName : js_string) : Task State unit :=
  of_hook (Hook.renameAccount isTauri (id (info account)) newName).

Definition handleRefresh :=
  Card.handleRefresh snd set_card onRefresh.

Definition handleRename :=
  Card.handleRename snd set_card account onRename.

Definition handleKeyDown :=
  Card.handleKeyDown snd set_card account onRename.
End Mounted.

End CardInApp.

(** The card of account A while its name is being edited. *)
Definition editing (typed : string) : Card.State :=
  {| Card.isRefreshing := false; Card.lastRefresh := None;
     Card.isEditing := true; Card.editName := str typed |}.

(** ** The theme provider (contexts/ThemeContext.tsx) *)

Module Theme.

Definition STORAGE_KEY : js_string := str "codex-switcher-theme".
Definition light : js_string := str "light".
Definition dark : js_string := str "dark".
Definition system : js_string := str "system".

(** The provider's state with the parts of the browser it reads and
    writes: [localStorage], the [prefers-color-scheme: dark] media query
    and the [dark] class of the root element.  [theme] is a string: the
    casts to [Theme] check nothing. *)
Record World := {
  theme : js_string;
  resolvedTheme : js_string;
  mounted : bool;
  localStorage : Map js_string;
  prefersDark : bool;
  darkClass : bool
}.

(** The first render in a browser with the given storage. *)
Definition initial (storage : Map js_string) (prefers cls : bool) : World :=
  {| theme := system; resolvedTheme := light; mounted := false;
     localStorage := storage; prefersDark := prefers; darkClass := cls |}.

Definition getSystemTheme (w : World) : js_string :=
  if prefersDark w then dark else light.

(** [stored || "system"] *)
Definition getStoredTheme (w : World) : js_string :=
  match Map_get (localStorage w) STORAGE_KEY with
  | Some stored => if truthy stored then stored else system
  | None => system
  end.

Definition setThemeState (t : js_string) (w : World) : World :=
  {| theme := t; resolvedTheme := resolvedTheme w; mounted := mounted w;
     localStorage := localStorage w; prefersDark := prefersDark w;
     darkClass := darkClass w |}.

Definition setResolvedTheme (t : js_string) (w : World) : World :=
  {| theme := theme w; resolvedTheme := t; mounted := mounted w;
     localStorage := localStorage w; prefersDark := prefersDark w;
     darkClass := darkClass w |}.

Definition setMounted (b : bool) (w : World) : World :=
  {| theme := theme w; resolvedTheme := resolvedTheme w; mounted := b;
     localStorage := localStorage w; prefersDark := prefersDark w;
     darkClass := darkClass w |}.

Definition setItem (k v : js_string) (w : World) : World :=
  {| theme := theme w; resolvedTheme := resolvedTheme w; mounted := mounted w;
     localStorage := Map_set (localStorage w) k v;
     prefersDark := prefersDark w; darkClass := darkClass w |}.

Definition setDarkClass (b : bool) (w : World) : World :=
  {| theme := theme w; resolvedTheme := resolvedTheme w; mounted := mounted w;
     localStorage := localStorage w; prefersDark := prefersDark w;
     darkClass := b |}.

(** The effect that initializes the theme from storage, lines 33-41. *)
Definition initEffect (w : World) : World :=
  let stored := getStoredTheme w in
  let resolved := if strict_eq stored system then getSystemTheme w else stored in
  setMounted true (setResolvedTheme resolved (setThemeState stored w)).

(** The effect that applies the [dark] class, lines 43-52. *)
Definition applyEffect (w : World) : World :=
  if negb (mounted w) then w
  else setDarkClass (strict_eq (resolvedTheme w) dark) w.

(** The effect that resolves the theme setting, lines 55-60. *)
Definition resolveEffect (w : World) : World :=
  if negb (mounted w) then w
  else setResolvedTheme
         (if strict_eq (theme w) system then getSystemTheme w else theme w) w.

(** The listener for theme changes from other tabs, lines 79-86; [key]
    and [newValue] are the fields of the storage event. *)
Definition handleStorageChange (key newValue : option js_string) (w : World)
  : World :=
  match key, newValue with
  | Some k, Some newTheme =>
      if strict_eq k STORAGE_KEY && truthy newTheme
         && existsb (strict_eq newTheme) [light; dark; system]
      then setThemeState newTheme w
      else w
  | _, _ => w
  end.

Definition setTheme (newTheme : js_string) (w : World) : World :=
  setThemeState newTheme (setItem STORAGE_KEY newTheme w).

Definition toggleTheme (w : World) : World :=
  let newTheme := if strict_eq (resolvedTheme w) dark then light else dark in
  setTheme newTheme w.

End Theme.

(** ** The notification settings form *)

(** The Number nearest to an integer. *)
Definition number_of_Z (z : Z) : number :=
  SF2Prim (binary_normalize prec emax z 0 false).

Definition is_digit (c : N) : bool := (N.leb 48 c && N.leb c 57)%bool.

(** The value of the decimal digits a string starts with, after [acc];
    [None] when it starts with no digit and [acc] is [None]. *)
Fixpoint leading_digits (acc : option Z) (s : js_string) : option Z :=
  match s with
  | c :: s' =>
      if is_digit c
      then leading_digits
             (Some (10 * match acc with Some a => a | None => 0 end
                    + Z.of_N (c - 48))%Z) s'
      else acc
  | [] => acc
  end.

(** The sign and the integer [parseInt(value, 10)] reads: leading white
    space is skipped, one sign is taken, then the digits up to the first
    code unit that is not one. *)
Definition scan_integer (value : js_string) : option (bool * Z) :=
  let s := trimStart value in
  let '(negative, rest) :=
    match s with
    | c :: t =>
        if N.eqb c 45 then (true, t)
        else if N.eqb c 43 then (false, t)
        else (false, s)
    | [] => (false, [])
    end in
  match leading_digits None rest with
  | Some n => Some (negative, n)
  | None => None
  end.

(** [parseInt(value, 10)] *)
Definition parseInt10 (value : js_string) : number :=
  match scan_integer value with
  | None => nan
  | Some (negative, n) =>
      if negative then PrimFloat.opp (number_of_Z n) else number_of_Z n
  end.

Module Notif.

Record Settings := {
  enabled : bool;
  primary_threshold : option number;
  secondary_threshold : option number;
  credits_threshold : option number;
  min_interval_minutes : number
}.

Inductive ThresholdField := primary | secondary | credits.

Definition field_name (f : ThresholdField) : js_string :=
  match f with
  | primary => str "primary_threshold"
  | secondary => str "secondary_threshold"
  | credits => str "credits_threshold"
  end.

Definition threshold (f : ThresholdField) (s : Settings) : option number :=
  match f with
  | primary => primary_threshold s
  | secondary => secondary_threshold s
  | credits => credits_threshold s
  end.

Record State := {
  isOpen : bool;
  settings : Settings;
  loading : bool;
  saving : bool;
  saved : bool;
  error : option js_string;
  showResetConfirm : bool;
  thresholdErrors : Map js_string
}.

(** The state of the first render. *)
Definition initial : State :=
  {| isOpen := false;
     settings := {| enabled := false;
                    primary_threshold := Some 80%float;
                    secondary_threshold := Some 80%float;
                    credits_threshold := Some 20%float;
                    min_interval_minutes := 60%float |};
     loading := false; saving := false; saved := false; error := None;
     showResetConfirm := false; thresholdErrors := [] |}.

Definition setSettings (f : Settings -> Settings) (st : State) : State :=
  {| isOpen := isOpen st; settings := f (settings st);
     loading := loading st; saving := saving st; saved := saved st;
     error := error st; showResetConfirm := showResetConfirm st;
     thresholdErrors := thresholdErrors st |}.

Definition setThresholdErrors (f : Map js_string -> Map js_string)
  (st : State) : State :=
  {| isOpen := isOpen st; settings := settings st;
     loading := loading st; saving := saving st; saved := saved st;
     error := error st; showResetConfirm := showResetConfirm st;
     thresholdErrors := f (thresholdErrors st) |}.

(** [updateField(field, value)] for each kind of field. *)
Definition updateThresholdField (f : ThresholdField) (v : option number)
  : State -> State :=
  setSettings (fun prev =>
    match f with
    | primary =>
        {| enabled := enabled prev; primary_threshold := v;
           secondary_threshold := secondary_threshold prev;
           credits_threshold := credits_threshold prev;
           min_interval_minutes := min_interval_minutes prev |}
    | secondary =>
        {| enabled := enabled prev;
           primary_threshold := primary_threshold prev;
           secondary_threshold := v;
           credits_threshold := credits_threshold prev;
           min_interval_minutes := min_interval_minutes prev |}
    | credits =>
        {| enabled := enabled prev;
           primary_threshold := primary_threshold prev;
           secondary_threshold := secondary_threshold prev;
           credits_threshold := v;
           min_interval_minutes := min_interval_minutes prev |}
    end).

Definition updateInterval (v : number) : State -> State :=
  setSettings (fun prev =>
    {| enabled := enabled prev;
       primary_threshold := primary_threshold prev;
       secondary_threshold := secondary_threshold prev;
       credits_threshold := credits_threshold prev;
       min_interval_minutes := v |}).

Definition setFieldError (f : ThresholdField) (message : js_string)
  : State -> State :=
  setThresholdErrors (fun prev => Map_set prev (field_name f) message).

(** [updateThreshold(field, value)], lines 719-738 *)
Definition updateThreshold (f : ThresholdField) (value : js_string)
  (st : State) : State :=
  match value with
  | [] => setFieldError f [] (updateThresholdField f None st)
  | _ :: _ =>
      let num := parseInt10 value in
      if PrimFloat.is_nan num
      then setFieldError f (str "Invalid number") st
      else if (PrimFloat.ltb num 0 || PrimFloat.ltb 100 num)%bool
      then setFieldError f (str "Must be 0-100") st
      else setFieldError f [] (updateThresholdField f (Some num) st)
  end.

(** The [onChange] of the interval input, lines 928-933 *)
Definition interval_onChange (value : js_string) (st : State) : State :=
  let num := parseInt10 value in
  if (negb (PrimFloat.is_nan num) && PrimFloat.leb 1 num)%bool
  then updateInterval num st
  else st.

(** A threshold the form accepts: disabled, or a number that is not
    below 0 and not above 100. *)
Definition acceptable (t : option number) : Prop :=
  match t with
  | None => True
  | Some v =>
      PrimFloat.is_nan v = false
      /\ PrimFloat.ltb v 0 = false /\ PrimFloat.ltb 100 v = false
  end.

(** The message shown under a threshold field, if any. *)
Definition field_error (f : ThresholdField) (st : State) : option js_string :=
  Map_get (thresholdErrors st) (field_name f).

End Notif.

(** An edit typed into the form: a threshold field or the interval. *)
Inductive FormEdit :=
| EditThreshold (f : Notif.ThresholdField) (value : js_string)
| EditInterval (value : js_string).

Definition apply_edit (st : Notif.State) (e : FormEdit) : Notif.State :=
  match e with
  | EditThreshold f value => Notif.updateThreshold f value st
  | EditInterval value => Notif.interval_onChange value st
  end.

(** Settings the form can hold after edits: acceptable thresholds and
    an interval that is a number not below 1. *)
Definition well_formed (s : Notif.Settings) : Prop :=
  (forall f, Notif.acceptable (Notif.threshold f s))
  /\ PrimFloat.is_nan (Notif.min_interval_minutes s) = false
  /\ PrimFloat.leb 1 (Notif.min_interval_minutes s) = true.

(** * Properties *)

(** ** Strings *)

Lemma strict_eq_true (a b : js_string) : strict_eq a b = true <-> a = b.
Proof.
  revert b; induction a as [|x a IH]; intros [|y b]; simpl;
    try (split; [discriminate | congruence]); try tauto.
  rewrite andb_true_iff, N.eqb_eq, IH.
  split; [intros [-> ->]; reflexivity | intros E; injection E; auto].
Qed.

Lemma strict_eq_refl (a : js_string) : strict_eq a a = true.
Proof. apply strict_eq_true; reflexivity. Qed.

Lemma strict_eq_false (a b : js_string) : strict_eq a b = false <-> a <> b.
Proof.
  rewrite <- strict_eq_true.
  destruct (strict_eq a b); split; congruence.
Qed.

Lemma trimStart_blank (s : js_string) :
  forallb isWhiteSpace s = true -> trimStart s = [].
Proof.
  induction s as [|c s IH]; simpl; [reflexivity|].
  rewrite andb_true_iff; intros [-> H]; auto.
Qed.

Lemma trimStart_empty_inv (s : js_string) :
  trimStart s = [] -> forallb isWhiteSpace s = true.
Proof.
  induction s as [|c s IH]; simpl; [reflexivity|].
  destruct (isWhiteSpace c); [auto | discriminate].
Qed.

(** [name.trim()] is the empty string exactly for a name made of white
    space only, the empty name included. *)
Lemma trim_empty_iff (s : js_string) :
  trim s = [] <-> forallb isWhiteSpace s = true.
Proof.
  split.
  - intros H. apply trimStart_empty_inv.
    unfold trim, trimEnd in H.
    apply (f_equal (@rev N)) in H. rewrite rev_involutive in H. simpl in H.
    apply trimStart_empty_inv in H.
    rewrite forallb_forall in H.
    destruct (trimStart s) as [|c t] eqn:E; [reflexivity|].
    exfalso.
    assert (Hc : isWhiteSpace c = true)
      by (apply H, in_rev; rewrite rev_involutive; left; reflexivity).
    clear H. induction s as [|d s IH]; simpl in E; [discriminate|].
    destruct (isWhiteSpace d) eqn:Ed; [auto|].
    injection E as -> _. congruence.
  - intros H. unfold trim. rewrite (trimStart_blank _ H). reflexivity.
Qed.

(** ** [Map] *)

Section JsMapFacts.
Variable V : Type.

Lemma Map_get_set (m : Map V) (k k' : js_string) (v : V) :
  Map_get (Map_set m k v) k' =
  if strict_eq k k' then Some v else Map_get m k'.
Proof.
  induction m as [|[k0 v0] m IH]; simpl; [reflexivity|].
  destruct (strict_eq k0 k) eqn:E0; simpl.
  - apply strict_eq_true in E0; subst k0.
    destruct (strict_eq k k'); reflexivity.
  - destruct (strict_eq k0 k') eqn:E1; [|exact IH].
    apply strict_eq_true in E1; subst k'.
    apply strict_eq_false in E0.
    destruct (strict_eq k k0) eqn:E2; [|reflexivity].
    apply strict_eq_true in E2; congruence.
Qed.

(** After [new Map(entries)], a key holds the value of the last entry
    that names it. *)
Lemma Map_get_new (entries : list (js_string * V)) (k : js_string) :
  Map_get (Map_new entries) k =
  option_map snd (find (fun kv => strict_eq (fst kv) k) (rev entries)).
Proof.
  unfold Map_new.
  induction entries as [|[k0 v0] l IH] using rev_ind; [reflexivity|].
  rewrite fold_left_app, rev_app_distr; simpl.
  rewrite Map_get_set.
  destruct (strict_eq k0 k); [reflexivity | exact IH].
Qed.
End JsMapFacts.

Lemma find_none_iff {A : Type} (f : A -> bool) (l : list A) :
  find f l = None <-> forall x, In x l -> f x = false.
Proof.
  split; [apply find_none|].
  induction l as [|a l IH]; simpl; intros H; [reflexivity|].
  rewrite (H a) by auto. apply IH; auto.
Qed.

(** ** Tasks *)

Section TaskFacts.
Variables S G : Type.
Variable gateway : forall c : Command, G -> Result (answer c) * G.

(** How [run] goes through a sequence. *)
Lemma run_bind {A B : Type} (p : Task S A) (f : A -> Task S B) s g tr :
  run gateway (bind p f) s g tr =
  let r := run gateway p s g tr in
  match outcome r with
  | Resolved a => run gateway (f a) (final r) (backend r) (trace r)
  | Rejected e =>
      {| outcome := Rejected e; final := final r;
         backend := backend r; trace := trace r |}
  end.
Proof.
  revert B f s g tr.
  induction p as [A a|A e|A c k IH|A u k IH|A l e k IH|A q _ k IH];
    intros B f s g tr; simpl; auto.
Qed.

(** [catch (err) { throw err; }] changes nothing. *)
Lemma run_rethrow {A : Type} (p : Task S A) s g tr :
  run gateway (try_catch p (fun err => Throw err)) s g tr =
  run gateway p s g tr.
Proof.
  revert s g tr.
  induction p as [A a|A e|A c k IH|A u k IH|A l e k IH|A q _ k IH];
    intros s g tr; simpl; auto.
Qed.

Lemma run_try_catch {A : Type} (p : Task S A) (h : js_error -> Task S A) s g tr :
  run gateway (try_catch p h) s g tr =
  let r := run gateway p s g tr in
  match outcome r with
  | Resolved a => r
  | Rejected e => run gateway (h e) (final r) (backend r) (trace r)
  end.
Proof.
  revert s g tr.
  induction p as [A a|A e|A c k IH|A u k IH|A l e k IH|A q _ k IH];
    intros s g tr; simpl; auto.
Qed.
End TaskFacts.

(** ** The usage overlay: [refreshUsage] *)

Lemma refreshUsage_resumed (s s' : Hook.State)
  (r : forall c : Command, Result (answer c)) (usageList : list UsageInfo) :
  r refresh_all_accounts_usage = Resolved usageList ->
  resume Hook.refreshUsage s r s' =
  {| reached := Settled (Resolved tt);
     current := {| Hook.accounts := Hook.overlay_update usageList (Hook.accounts s');
                   Hook.loading := Hook.loading s';
                   Hook.error := Hook.error s' |};
     emitted := []; spawned := [] |}.
Proof.
  intros H. unfold resume; simpl. rewrite H. reflexivity.
Qed.

Lemma overlay_update_nth (usageList : list UsageInfo)
  (prev : list AccountWithUsage) (i : nat) :
  nth_error (Hook.overlay_update usageList prev) i =
  option_map
    (fun a =>
       {| info := info a;
          usage := find (fun u => strict_eq (account_id u) (id (info a))) usageList;
          usageLoading := Some false |})
    (nth_error prev i).
Proof. unfold Hook.overlay_update. apply nth_error_map. Qed.

(** C1, as the code has it: when the batched usage response arrives,
    every account of the registry whose id does not appear in the response
    stays in its place with its account fields, and its usage snapshot is
    cleared. *)
Theorem refreshUsage_clears_absent_ids
  (s s' : Hook.State) (r : forall c : Command, Result (answer c))
  (usageList : list UsageInfo) (i : nat) (a : AccountWithUsage) :
  r refresh_all_accounts_usage = Resolved usageList ->
  nth_error (Hook.accounts s') i = Some a ->
  (forall u, In u usageList -> account_id u <> id (info a)) ->
  nth_error (Hook.accounts (current (resume Hook.refreshUsage s r s'))) i
  = Some {| info := info a; usage := None; usageLoading := Some false |}.
Proof.
  intros Hr Ha Habs.
  rewrite (@refreshUsage_resumed s s' r usageList Hr); simpl.
  rewrite overlay_update_nth, Ha; simpl.
  replace (find _ usageList) with (@None UsageInfo); [reflexivity|].
  symmetry; apply find_none_iff.
  intros u Hu. apply strict_eq_false. auto.
Qed.

Lemma refreshUsage_clears_absent_ids_witness :
  nth_error
    (Hook.accounts
       (current
          (resume Hook.refreshUsage
             (Sample.registry [])
             (Sample.usage_answer [Sample.reading "A" 55%float])
             (Sample.registry
                [Sample.entry "A" true (Some (Sample.reading "A" 40%float)) None;
                 Sample.entry "B" false (Some (Sample.reading "B" 10%float)) None]))))
    1
  = Some (Sample.entry "B" false None (Some false)).
Proof.
  apply (@refreshUsage_clears_absent_ids
           (Sample.registry [])
           (Sample.registry
              [Sample.entry "A" true (Some (Sample.reading "A" 40%float)) None;
               Sample.entry "B" false (Some (Sample.reading "B" 10%float)) None])
           (Sample.usage_answer [Sample.reading "A" 55%float])
           [Sample.reading "A" 55%float] 1
           (Sample.entry "B" false (Some (Sample.reading "B" 10%float)) None)).
  - reflexivity.
  - reflexivity.
  - intros u [<-|[]]. vm_compute. discriminate.
Defined.

(** C1, as the specification words it, fails: account B holds a snapshot,
    the response reports account A only, and B's snapshot is gone. *)
Lemma refreshUsage_drops_unreported_snapshot :
  let before :=
    Sample.registry
      [Sample.entry "A" true (Some (Sample.reading "A" 40%float)) None;
       Sample.entry "B" false (Some (Sample.reading "B" 10%float)) None] in
  let after :=
    current (resume Hook.refreshUsage before
               (Sample.usage_answer [Sample.reading "A" 55%float]) before) in
  map usage (Hook.accounts after) = [Some (Sample.reading "A" 55%float); None]
  /\ ~ absent_ids_keep_snapshot.
Proof.
  split; [reflexivity|].
  intros claim.
  specialize (claim
    (Sample.registry [])
    (Sample.registry
       [Sample.entry "A" true (Some (Sample.reading "A" 40%float)) None;
        Sample.entry "B" false (Some (Sample.reading "B" 10%float)) None])
    (Sample.usage_answer [Sample.reading "A" 55%float])
    [Sample.reading "A" 55%float] 1%nat
    (Sample.entry "B" false (Some (Sample.reading "B" 10%float)) None)
    eq_refl eq_refl).
  assert (Habs : forall u, In u [Sample.reading "A" 55%float] ->
                 account_id u <> id (info (Sample.entry "B" false
                   (Some (Sample.reading "B" 10%float)) None))).
  { intros u [<-|[]]. vm_compute. discriminate. }
  specialize (claim Habs). vm_compute in claim. discriminate.
Qed.

(** ** The single refresh: [refreshSingleUsage] *)

Lemma refreshSingleUsage_started (accountId : js_string) (s : Hook.State) :
  current (advance (Hook.refreshSingleUsage accountId) s)
  = with_accounts s (Hook.mark_loading accountId (Hook.accounts s))
  /\ waiting_for (advance (Hook.refreshSingleUsage accountId) s)
     = Some (get_usage accountId)
  /\ emitted (advance (Hook.refreshSingleUsage accountId) s)
     = [Called (get_usage accountId)].
Proof. repeat split. Qed.

Lemma refreshSingleUsage_resolved (accountId : js_string) (s s' : Hook.State)
  (r : forall c : Command, Result (answer c)) (u : UsageInfo) :
  r (get_usage accountId) = Resolved u ->
  resume (Hook.refreshSingleUsage accountId) s r s' =
  {| reached := Settled (Resolved tt);
     current := with_accounts s' (Hook.store_usage accountId u (Hook.accounts s'));
     emitted := []; spawned := [] |}.
Proof. intros H. unfold resume; simpl. rewrite H. reflexivity. Qed.

Lemma refreshSingleUsage_rejected (accountId : js_string) (s s' : Hook.State)
  (r : forall c : Command, Result (answer c)) (e : js_error) :
  r (get_usage accountId) = Rejected e ->
  resume (Hook.refreshSingleUsage accountId) s r s' =
  {| reached := Settled (Rejected e);
     current := with_accounts s' (Hook.clear_loading accountId (Hook.accounts s'));
     emitted := [Logged (str "Failed to refresh single usage:") e];
     spawned := [] |}.
Proof. intros H. unfold resume; simpl. rewrite H. reflexivity. Qed.

Lemma mark_loading_nth accountId prev i :
  nth_error (Hook.mark_loading accountId prev) i =
  option_map (fun a => if strict_eq (id (info a)) accountId
                       then with_usageLoading a true else a)
             (nth_error prev i).
Proof. apply nth_error_map. Qed.

Lemma store_usage_nth accountId u prev i :
  nth_error (Hook.store_usage accountId u prev) i =
  option_map (fun a => if strict_eq (id (info a)) accountId
                       then {| info := info a; usage := Some u;
                               usageLoading := Some false |}
                       else a)
             (nth_error prev i).
Proof. apply nth_error_map. Qed.

Lemma clear_loading_nth accountId prev i :
  nth_error (Hook.clear_loading accountId prev) i =
  option_map (fun a => if strict_eq (id (info a)) accountId
                       then with_usageLoading a false else a)
             (nth_error prev i).
Proof. apply nth_error_map. Qed.

(** A map that rewrites only the entries of one id is the identity on a
    registry that does not hold the id. *)
Lemma map_by_id_absent (accountId : js_string)
  (f : AccountWithUsage -> AccountWithUsage) (prev : list AccountWithUsage) :
  (forall a, In a prev -> id (info a) <> accountId) ->
  map (fun a => if strict_eq (id (info a)) accountId then f a else a) prev
  = prev.
Proof.
  intros H. rewrite <- (map_id prev) at 2.
  apply map_ext_in. intros a Ha.
  apply H, strict_eq_false in Ha. rewrite Ha. reflexivity.
Qed.

(** C10: when the batched usage response arrives, every account of the
    registry has [usageLoading = false], with or without an entry in the
    response; so the flag a single refresh raised for an id, still waiting
    for its own answer, is cleared by the batched one. *)
Theorem refreshUsage_clears_every_loading_flag
  (s s' : Hook.State) (r : forall c : Command, Result (answer c))
  (usageList : list UsageInfo) :
  r refresh_all_accounts_usage = Resolved usageList ->
  (let done := resume Hook.refreshUsage s r s' in
   reached done = Settled (Resolved tt)
   /\ map info (Hook.accounts (current done)) = map info (Hook.accounts s')
   /\ Forall (fun a => usageLoading a = Some false)
             (Hook.accounts (current done)))
  /\ (forall (accountId : js_string) (i : nat) (a : AccountWithUsage),
        nth_error (Hook.accounts s') i = Some a ->
        id (info a) = accountId ->
        let single := advance (Hook.refreshSingleUsage accountId) s' in
        let done := resume Hook.refreshUsage s r (current single) in
        waiting_for single = Some (get_usage accountId)
        /\ option_map usageLoading (nth_error (Hook.accounts (current single)) i)
           = Some (Some true)
        /\ option_map usageLoading (nth_error (Hook.accounts (current done)) i)
           = Some (Some false)).
Proof.
  intros Hr. split.
  - rewrite (@refreshUsage_resumed s s' r usageList Hr); simpl.
    split; [reflexivity|]. split.
    + unfold Hook.overlay_update. rewrite map_map. reflexivity.
    + unfold Hook.overlay_update. apply Forall_map, Forall_forall.
      reflexivity.
  - intros accountId i a Ha Hid; simpl.
    split; [reflexivity|]. split.
    + rewrite mark_loading_nth, Ha; simpl.
      rewrite Hid, strict_eq_refl. reflexivity.
    + rewrite (@refreshUsage_resumed s _ r usageList Hr); simpl.
      rewrite overlay_update_nth, mark_loading_nth, Ha. reflexivity.
Qed.

Lemma refreshUsage_clears_every_loading_flag_witness :
  let s' := Sample.registry
              [Sample.entry "A" true (Some (Sample.reading "A" 40%float)) None;
               Sample.entry "B" false None (Some true)] in
  let done := resume Hook.refreshUsage (Sample.registry [])
                (Sample.usage_answer [Sample.reading "A" 55%float]) s' in
  Forall (fun a => usageLoading a = Some false) (Hook.accounts (current done)).
Proof.
  exact (proj2 (proj2 (proj1
    (@refreshUsage_clears_every_loading_flag
       (Sample.registry [])
       (Sample.registry
          [Sample.entry "A" true (Some (Sample.reading "A" 40%float)) None;
           Sample.entry "B" false None (Some true)])
       (Sample.usage_answer [Sample.reading "A" 55%float])
       [Sample.reading "A" 55%float] eq_refl)))).
Defined.

(** C4: [refreshSingleUsage(id)] raises [usageLoading] on the entries of
    [id] and waits for [get_usage]; when the answer arrives, in whatever
    state the registry then is, the entries of [id] get
    [usageLoading = false], with the new snapshot on success and their own
    snapshot on failure, the failure is thrown to the caller as it came,
    every other entry is left as it is, and a registry that no longer holds
    [id] is left unchanged. *)
Theorem refreshSingleUsage_touches_only_its_id
  (accountId : js_string) (s s' : Hook.State)
  (r : forall c : Command, Result (answer c)) :
  let started := advance (Hook.refreshSingleUsage accountId) s in
  let done := resume (Hook.refreshSingleUsage accountId) s r s' in
  (waiting_for started = Some (get_usage accountId)
   /\ forall (i : nat) (a : AccountWithUsage),
        nth_error (Hook.accounts s) i = Some a ->
        nth_error (Hook.accounts (current started)) i
        = Some (if strict_eq (id (info a)) accountId
                then {| info := info a; usage := usage a;
                        usageLoading := Some true |}
                else a))
  /\ reached done
     = Settled (match r (get_usage accountId) with
                | Resolved _ => Resolved tt
                | Rejected e => Rejected e
                end)
  /\ Hook.loading (current done) = Hook.loading s'
  /\ Hook.error (current done) = Hook.error s'
  /\ (forall (i : nat) (a : AccountWithUsage),
        nth_error (Hook.accounts s') i = Some a ->
        id (info a) = accountId ->
        nth_error (Hook.accounts (current done)) i
        = Some {| info := info a;
                  usage := match r (get_usage accountId) with
                           | Resolved u => Some u
                           | Rejected _ => usage a
                           end;
                  usageLoading := Some false |})
  /\ (forall (i : nat) (a : AccountWithUsage),
        nth_error (Hook.accounts s') i = Some a ->
        id (info a) <> accountId ->
        nth_error (Hook.accounts (current done)) i = Some a)
  /\ List.length (Hook.accounts (current done)) = List.length (Hook.accounts s')
  /\ ((forall a, In a (Hook.accounts s') -> id (info a) <> accountId) ->
      current done = s').
Proof.
  intros started done.
  split.
  { split; [reflexivity|]. intros i a Ha.
    subst started; simpl. rewrite mark_loading_nth, Ha. reflexivity. }
  subst done.
  destruct (r (get_usage accountId)) as [u|e] eqn:Hr.
  - rewrite (@refreshSingleUsage_resolved accountId s s' r u Hr); simpl.
    repeat split.
    + intros i a Ha Hid. rewrite store_usage_nth, Ha; simpl.
      rewrite Hid, strict_eq_refl. reflexivity.
    + intros i a Ha Hid. rewrite store_usage_nth, Ha; simpl.
      apply strict_eq_false in Hid. rewrite Hid. reflexivity.
    + apply length_map.
    + intros Habs. unfold with_accounts, Hook.store_usage.
      rewrite map_by_id_absent by exact Habs. destruct s'; reflexivity.
  - rewrite (@refreshSingleUsage_rejected accountId s s' r e Hr); simpl.
    repeat split.
    + intros i a Ha Hid. rewrite clear_loading_nth, Ha; simpl.
      rewrite Hid, strict_eq_refl. reflexivity.
    + intros i a Ha Hid. rewrite clear_loading_nth, Ha; simpl.
      apply strict_eq_false in Hid. rewrite Hid. reflexivity.
    + apply length_map.
    + intros Habs. unfold with_accounts, Hook.clear_loading.
      rewrite map_by_id_absent by exact Habs. destruct s'; reflexivity.
Qed.

Lemma refreshSingleUsage_touches_only_its_id_witness :
  let s' := Sample.registry
              [Sample.entry "B" false (Some (Sample.reading "B" 10%float)) None] in
  current (resume (Hook.refreshSingleUsage (str "A"))
             (Sample.registry
                [Sample.entry "A" true None None;
                 Sample.entry "B" false (Some (Sample.reading "B" 10%float)) None])
             (Sample.single_answer (Sample.reading "A" 55%float)) s')
  = s'.
Proof.
  intros s'.
  apply (@refreshSingleUsage_touches_only_its_id (str "A")
           (Sample.registry
              [Sample.entry "A" true None None;
               Sample.entry "B" false (Some (Sample.reading "B" 10%float)) None])
           s' (Sample.single_answer (Sample.reading "A" 55%float))).
  intros a [<-|[]]. vm_compute. discriminate.
Defined.

(** C6: two calls of [refreshSingleUsage] for one id overlap, and the
    answer to the first call arrives after the second call has completed.
    Composing the state updates in that order, the entries of the id end
    with the snapshot of the first call and [usageLoading = false], and
    every other entry ends as it started. *)
Theorem refreshSingleUsage_last_completion_wins
  (accountId : js_string) (s : Hook.State)
  (r1 r2 : forall c : Command, Result (answer c)) (u1 : UsageInfo) :
  r1 (get_usage accountId) = Resolved u1 ->
  let call := Hook.refreshSingleUsage accountId in
  let issued1 := current (advance call s) in
  let issued2 := current (advance call issued1) in
  let done2 := current (resume call issued1 r2 issued2) in
  let done1 := resume call s r1 done2 in
  reached done1 = Settled (Resolved tt)
  /\ (forall (i : nat) (a : AccountWithUsage),
        nth_error (Hook.accounts s) i = Some a ->
        id (info a) = accountId ->
        nth_error (Hook.accounts (current done1)) i
        = Some {| info := info a; usage := Some u1;
                  usageLoading := Some false |})
  /\ (forall (i : nat) (a : AccountWithUsage),
        nth_error (Hook.accounts s) i = Some a ->
        id (info a) <> accountId ->
        nth_error (Hook.accounts (current done1)) i = Some a).
Proof.
  intros Hr1 call issued1 issued2 done2 done1.
  subst done1. unfold call at 1 2 3.
  rewrite (@refreshSingleUsage_resolved accountId s done2 r1 u1 Hr1); simpl.
  split; [reflexivity|].
  assert (Hsame : forall i a,
             nth_error (Hook.accounts s) i = Some a ->
             exists b, nth_error (Hook.accounts done2) i = Some b
                       /\ info b = info a
                       /\ (id (info a) <> accountId -> b = a)).
  { intros i a Ha. subst done2 issued2 issued1 call.
    destruct (r2 (get_usage accountId)) as [u2|e2] eqn:Hr2.
    - rewrite (@refreshSingleUsage_resolved accountId _ _ r2 u2 Hr2); simpl.
      rewrite store_usage_nth, !mark_loading_nth, Ha; simpl.
      eexists; split; [reflexivity|].
      destruct (strict_eq (id (info a)) accountId) eqn:E; simpl;
        rewrite ?E; simpl; rewrite ?E; simpl; split; auto.
      intros Hne. apply strict_eq_false in Hne. congruence.
    - rewrite (@refreshSingleUsage_rejected accountId _ _ r2 e2 Hr2); simpl.
      rewrite clear_loading_nth, !mark_loading_nth, Ha; simpl.
      eexists; split; [reflexivity|].
      destruct (strict_eq (id (info a)) accountId) eqn:E; simpl;
        rewrite ?E; simpl; rewrite ?E; simpl; split; auto.
      intros Hne. apply strict_eq_false in Hne. congruence. }
  split.
  - intros i a Ha Hid. destruct (Hsame i a Ha) as (b & Hb & Hinfo & _).
    rewrite store_usage_nth, Hb; simpl.
    rewrite Hinfo, Hid, strict_eq_refl. reflexivity.
  - intros i a Ha Hid. destruct (Hsame i a Ha) as (b & Hb & Hinfo & Heq).
    rewrite store_usage_nth, Hb; simpl.
    rewrite Hinfo. apply strict_eq_false in Hid as Hid'. rewrite Hid'.
    rewrite (Heq Hid). reflexivity.
Qed.

Lemma refreshSingleUsage_last_completion_wins_witness :
  let s := Sample.registry
             [Sample.entry "A" true (Some (Sample.reading "A" 40%float)) None;
              Sample.entry "B" false None None] in
  let call := Hook.refreshSingleUsage (str "A") in
  let issued1 := current (advance call s) in
  let issued2 := current (advance call issued1) in
  let done2 :=
    current (resume call issued1
               (Sample.single_answer (Sample.reading "A" 70%float)) issued2) in
  let done1 :=
    resume call s (Sample.single_answer (Sample.reading "A" 55%float)) done2 in
  Hook.accounts (current done1)
  = [Sample.entry "A" true (Some (Sample.reading "A" 55%float)) (Some false);
     Sample.entry "B" false None None]
  /\ reached done1 = Settled (Resolved tt).
Proof.
  split; [reflexivity|].
  exact (proj1
    (@refreshSingleUsage_last_completion_wins (str "A")
       (Sample.registry
          [Sample.entry "A" true (Some (Sample.reading "A" 40%float)) None;
           Sample.entry "B" false None None])
       (Sample.single_answer (Sample.reading "A" 55%float))
       (Sample.single_answer (Sample.reading "A" 70%float))
       (Sample.reading "A" 55%float) eq_refl)).
Defined.

(** ** The registry: [loadAccounts] *)

Lemma loadAccounts_resolved (preserveUsage : bool) (s s' : Hook.State)
  (r : forall c : Command, Result (answer c)) (accountList : list AccountInfo) :
  r list_accounts = Resolved accountList ->
  resume (Hook.loadAccounts true preserveUsage) s r s' =
  {| reached := Settled (Resolved tt);
     current :=
       {| Hook.accounts :=
            (if preserveUsage
             then Hook.preserve_update accountList (Hook.accounts s')
             else Hook.replace_update accountList (Hook.accounts s'));
          Hook.loading := false;
          Hook.error := Hook.error s' |};
     emitted := []; spawned := [] |}.
Proof.
  intros H. unfold resume; simpl. rewrite H.
  destruct preserveUsage; reflexivity.
Qed.

Lemma loadAccounts_rejected (preserveUsage : bool) (s s' : Hook.State)
  (r : forall c : Command, Result (answer c)) (e : js_error) :
  r list_accounts = Rejected e ->
  resume (Hook.loadAccounts true preserveUsage) s r s' =
  {| reached := Settled (Resolved tt);
     current :=
       {| Hook.accounts := Hook.accounts s';
          Hook.loading := false;
          Hook.error := Some (error_text e) |};
     emitted := []; spawned := [] |}.
Proof. intros H. unfold resume; simpl. rewrite H. reflexivity. Qed.

(** What [usageMap.get] finds: the snapshot of the last entry of the old
    registry that carries the id. *)
Lemma usageMap_get_last (prev : list AccountWithUsage) (k : js_string) :
  Hook.usageMap_get (Map_new (map (fun a => (id (info a), usage a)) prev)) k
  = match find (fun e => strict_eq (id (info e)) k) (rev prev) with
    | Some e => usage e
    | None => None
    end.
Proof.
  unfold Hook.usageMap_get. rewrite Map_get_new, <- map_rev.
  induction (rev prev) as [|e l IH]; simpl; [reflexivity|].
  destruct (strict_eq (id (info e)) k); [reflexivity | exact IH].
Qed.

Lemma preserve_update_nth (accountList : list AccountInfo)
  (prev : list AccountWithUsage) (i : nat) :
  nth_error (Hook.preserve_update accountList prev) i =
  option_map
    (fun a =>
       {| info := a;
          usage := match find (fun e => strict_eq (id (info e)) (id a))
                              (rev prev) with
                   | Some e => usage e
                   | None => None
                   end;
          usageLoading := None |})
    (nth_error accountList i).
Proof.
  unfold Hook.preserve_update. rewrite nth_error_map.
  destruct (nth_error accountList i) as [a|]; simpl; [|reflexivity].
  unfold with_usage; simpl. rewrite usageMap_get_last. reflexivity.
Qed.

(** C2: a reload with [preserveUsage = true] builds the registry from the
    returned list, in its order: an account whose id the old registry holds
    carries the old snapshot of that id and no loading flag, an account
    whose id is new has no snapshot, and ids the returned list does not
    name are gone.  The old registry is the one in place when the listing
    arrives; "the old snapshot of the id" supposes the old entries of the
    id agree on it, as they do when ids are distinct. *)
Theorem loadAccounts_preserves_usage
  (s s' : Hook.State) (r : forall c : Command, Result (answer c))
  (accountList : list AccountInfo) :
  r list_accounts = Resolved accountList ->
  let done := resume (Hook.loadAccounts true true) s r s' in
  reached done = Settled (Resolved tt)
  /\ map info (Hook.accounts (current done)) = accountList
  /\ (forall (i : nat) (a : AccountInfo) (e : AccountWithUsage),
        nth_error accountList i = Some a ->
        In e (Hook.accounts s') ->
        id (info e) = id a ->
        (forall e', In e' (Hook.accounts s') -> id (info e') = id a ->
                    usage e' = usage e) ->
        nth_error (Hook.accounts (current done)) i
        = Some {| info := a; usage := usage e; usageLoading := None |})
  /\ (forall (i : nat) (a : AccountInfo),
        nth_error accountList i = Some a ->
        (forall e, In e (Hook.accounts s') -> id (info e) <> id a) ->
        nth_error (Hook.accounts (current done)) i
        = Some {| info := a; usage := None; usageLoading := None |})
  /\ (forall e : AccountWithUsage,
        In e (Hook.accounts s') ->
        (forall a, In a accountList -> id a <> id (info e)) ->
        forall b, In b (Hook.accounts (current done)) ->
                  id (info b) <> id (info e)).
Proof.
  intros Hr done. subst done.
  rewrite (@loadAccounts_resolved true s s' r accountList Hr); simpl.
  assert (Hinfo : map info (Hook.preserve_update accountList (Hook.accounts s'))
                  = accountList).
  { unfold Hook.preserve_update. rewrite map_map; simpl. apply map_id. }
  split; [reflexivity|]. split; [exact Hinfo|]. split; [|split].
  - intros i a e Ha He Hid Huniq.
    rewrite preserve_update_nth, Ha; simpl.
    destruct (find _ (rev (Hook.accounts s'))) as [e0|] eqn:F.
    + apply find_some in F. destruct F as [Hin Heq].
      apply in_rev in Hin. apply strict_eq_true in Heq.
      rewrite (Huniq e0 Hin Heq). reflexivity.
    + exfalso. apply in_rev in He. apply (find_none _ _ F e) in He.
      simpl in He. rewrite Hid, strict_eq_refl in He. discriminate.
  - intros i a Ha Hnew.
    rewrite preserve_update_nth, Ha; simpl.
    destruct (find _ (rev (Hook.accounts s'))) as [e0|] eqn:F; [|reflexivity].
    apply find_some in F. destruct F as [Hin Heq].
    apply in_rev in Hin. apply strict_eq_true in Heq.
    exfalso. exact (Hnew e0 Hin Heq).
  - intros e He Hgone b Hb Heq.
    apply (in_map info) in Hb. rewrite Hinfo in Hb.
    apply (Hgone (info b) Hb). exact Heq.
Qed.

Lemma loadAccounts_preserves_usage_witness :
  let s' := Sample.registry
              [Sample.entry "A" true (Some (Sample.reading "A" 40%float))
                 (Some true);
               Sample.entry "C" false (Some (Sample.reading "C" 5%float)) None] in
  let listed := [Sample.account "B" true; Sample.account "A" false] in
  let done := resume (Hook.loadAccounts true true) (Sample.registry [])
                (Sample.list_answer listed) s' in
  Hook.accounts (current done)
  = [Sample.entry "B" true None None;
     Sample.entry "A" false (Some (Sample.reading "A" 40%float)) None]
  /\ map info (Hook.accounts (current done)) = listed.
Proof.
  split; [reflexivity|].
  exact (proj1 (proj2
    (@loadAccounts_preserves_usage (Sample.registry [])
       (Sample.registry
          [Sample.entry "A" true (Some (Sample.reading "A" 40%float))
             (Some true);
           Sample.entry "C" false (Some (Sample.reading "C" 5%float)) None])
       (Sample.list_answer [Sample.account "B" true; Sample.account "A" false])
       [Sample.account "B" true; Sample.account "A" false] eq_refl))).
Defined.

(** C5: when [list_accounts] fails, [loadAccounts] records the text of
    the failure in the hook's [error], ends normally, and the registry is
    the one that was in place: nothing was touched before the call was
    issued, and nothing is when the failure arrives. *)
Theorem loadAccounts_failure_keeps_registry
  (preserveUsage : bool) (s s' : Hook.State)
  (r : forall c : Command, Result (answer c)) (e : js_error) :
  r list_accounts = Rejected e ->
  let started := advance (Hook.loadAccounts true preserveUsage) s in
  let done := resume (Hook.loadAccounts true preserveUsage) s r s' in
  waiting_for started = Some list_accounts
  /\ Hook.accounts (current started) = Hook.accounts s
  /\ reached done = Settled (Resolved tt)
  /\ Hook.accounts (current done) = Hook.accounts s'
  /\ Hook.error (current done) = Some (error_text e)
  /\ Hook.loading (current done) = false.
Proof.
  intros Hr started done. subst started done.
  rewrite (@loadAccounts_rejected preserveUsage s s' r e Hr).
  repeat split.
Qed.

Lemma loadAccounts_failure_keeps_registry_witness :
  let s := Sample.registry
             [Sample.entry "A" true (Some (Sample.reading "A" 40%float)) None] in
  let done := resume (Hook.loadAccounts true false) s Sample.refuse_all s in
  Hook.accounts (current done) = Hook.accounts s
  /\ Hook.error (current done) = Some (str "backend unavailable").
Proof.
  split.
  - exact (proj1 (proj2 (proj2 (proj2
      (@loadAccounts_failure_keeps_registry false
         (Sample.registry
            [Sample.entry "A" true (Some (Sample.reading "A" 40%float)) None])
         (Sample.registry
            [Sample.entry "A" true (Some (Sample.reading "A" 40%float)) None])
         Sample.refuse_all Sample.refused eq_refl))))).
  - reflexivity.
Defined.

(** ** The mutation orchestrator *)

Lemma orchestrates_intro (c : Command) (next reload : Task Hook.State unit) :
  (forall (G : Type) (gateway : forall c : Command, G -> Result (answer c) * G)
          s g tr,
      run gateway (try_catch next (fun err => Throw err)) s g tr
      = run gateway reload s g tr) ->
  orchestrates
    (try_catch (invoke c ;; next) (fun err => Throw err)) c reload.
Proof.
  intros Hnext. split; [|split].
  - intros s. repeat split.
  - intros s s' r e Hr. unfold resume; simpl. rewrite Hr. reflexivity.
  - intros G gateway s g tr. simpl.
    destruct (gateway c g) as [[v|e] g']; simpl; [apply Hnext | reflexivity].
Qed.

Lemma preserve_update_explicit (accountList : list AccountInfo)
  (prev : list AccountWithUsage) :
  Hook.preserve_update accountList prev
  = map (fun a =>
           {| info := a;
              usage := match find (fun e => strict_eq (id (info e)) (id a))
                                  (rev prev) with
                       | Some e => usage e
                       | None => None
                       end;
              usageLoading := None |})
        accountList.
Proof.
  unfold Hook.preserve_update. apply map_ext. intros a.
  unfold with_usage; simpl. rewrite usageMap_get_last. reflexivity.
Qed.

(** C3: each of the four mutations sends its command first and touches
    nothing before the answer; a refusal of the command is thrown to the
    caller as it came, with the registry as it was; after an accepted
    command, [switchAccount] and [renameAccount] continue as
    [loadAccounts(true)], [deleteAccount] as [loadAccounts()], and
    [importFromFile] as [loadAccounts()] followed by [refreshUsage()].
    Written out, inside Tauri and with a backend that accepts the command
    and returns a listing: [switchAccount] and [renameAccount] send
    [list_accounts] next and nothing more, and the registry becomes the
    listing, each account with the snapshot the old registry held for its
    id and no loading flag; [deleteAccount] does the same with no snapshot
    on any account; [importFromFile] sends [list_accounts] and then
    [refresh_all_accounts_usage], and the registry becomes the listing,
    each account with the snapshot the usage response reports for its id
    and its loading flag down. *)
Theorem mutations_reload_after_success
  (isTauri : bool) (accountId newName path name : js_string)
  (G : Type) (gateway : forall c : Command, G -> Result (answer c) * G)
  (s : Hook.State) (g g1 g2 g3 : G) (added : AccountInfo)
  (accountList : list AccountInfo) (usageList : list UsageInfo) :
  let carried :=
    map (fun a =>
           {| info := a;
              usage := match find (fun e => strict_eq (id (info e)) (id a))
                                  (rev (Hook.accounts s)) with
                       | Some e => usage e
                       | None => None
                       end;
              usageLoading := None |})
        accountList in
  let fresh :=
    map (fun a => {| info := a; usage := None; usageLoading := None |})
        accountList in
  let reported :=
    map (fun a =>
           {| info := a;
              usage := find (fun u => strict_eq (account_id u) (id a)) usageList;
              usageLoading := Some false |})
        accountList in
  (orchestrates (Hook.switchAccount isTauri accountId)
                (switch_account accountId)
                (Hook.loadAccounts isTauri true)
   /\ orchestrates (Hook.renameAccount isTauri accountId newName)
                   (rename_account accountId newName)
                   (Hook.loadAccounts isTauri true)
   /\ orchestrates (Hook.deleteAccount isTauri accountId)
                   (delete_account accountId)
                   (Hook.loadAccounts isTauri false)
   /\ orchestrates (Hook.importFromFile isTauri path name)
                   (add_account_from_file path name)
                   (Hook.loadAccounts isTauri false ;; Hook.refreshUsage))
  /\ (gateway (switch_account accountId) g = (Resolved tt, g1) ->
      gateway list_accounts g1 = (Resolved accountList, g2) ->
      run gateway (Hook.switchAccount true accountId) s g []
      = {| outcome := Resolved tt;
           final := {| Hook.accounts := carried; Hook.loading := false;
                       Hook.error := None |};
           backend := g2;
           trace := [Called (switch_account accountId);
                     Called list_accounts] |})
  /\ (gateway (rename_account accountId newName) g = (Resolved tt, g1) ->
      gateway list_accounts g1 = (Resolved accountList, g2) ->
      run gateway (Hook.renameAccount true accountId newName) s g []
      = {| outcome := Resolved tt;
           final := {| Hook.accounts := carried; Hook.loading := false;
                       Hook.error := None |};
           backend := g2;
           trace := [Called (rename_account accountId newName);
                     Called list_accounts] |})
  /\ (gateway (delete_account accountId) g = (Resolved tt, g1) ->
      gateway list_accounts g1 = (Resolved accountList, g2) ->
      run gateway (Hook.deleteAccount true accountId) s g []
      = {| outcome := Resolved tt;
           final := {| Hook.accounts := fresh; Hook.loading := false;
                       Hook.error := None |};
           backend := g2;
           trace := [Called (delete_account accountId);
                     Called list_accounts] |})
  /\ (gateway (add_account_from_file path name) g = (Resolved added, g1) ->
      gateway list_accounts g1 = (Resolved accountList, g2) ->
      gateway refresh_all_accounts_usage g2 = (Resolved usageList, g3) ->
      run gateway (Hook.importFromFile true path name) s g []
      = {| outcome := Resolved tt;
           final := {| Hook.accounts := reported; Hook.loading := false;
                       Hook.error := None |};
           backend := g3;
           trace := [Called (add_account_from_file path name);
                     Called list_accounts;
                     Called refresh_all_accounts_usage] |}).
Proof.
  intros carried fresh reported. subst carried fresh reported.
  split; [|split; [|split; [|split]]].
  - split; [|split; [|split]];
      apply orchestrates_intro; intros; apply run_rethrow.
  - intros H1 H2. simpl. rewrite H1. simpl. rewrite H2. simpl.
    rewrite preserve_update_explicit. reflexivity.
  - intros H1 H2. simpl. rewrite H1. simpl. rewrite H2. simpl.
    rewrite preserve_update_explicit. reflexivity.
  - intros H1 H2. simpl. rewrite H1. simpl. rewrite H2. simpl.
    reflexivity.
  - intros H1 H2 H3. simpl. rewrite H1. simpl. rewrite H2. simpl.
    rewrite H3. simpl.
    unfold Hook.overlay_update, Hook.replace_update. rewrite map_map.
    reflexivity.
Qed.

Lemma mutations_reload_after_success_witness :
  let before :=
    Sample.registry
      [Sample.entry "A" true (Some (Sample.reading "A" 40%float)) (Some true);
       Sample.entry "B" false None None] in
  let listing := [Sample.account "A" false; Sample.account "B" true] in
  resume (Hook.switchAccount true (str "B")) before Sample.refuse_all before
  = {| reached := Settled (Rejected Sample.refused); current := before;
       emitted := []; spawned := [] |}
  /\ run Script.backend (Hook.switchAccount true (str "B")) before
       [Script.Accept (switch_account (str "B")) tt;
        Script.Accept list_accounts listing] []
     = {| outcome := Resolved tt;
          final :=
            Sample.registry
              [Sample.entry "A" false (Some (Sample.reading "A" 40%float)) None;
               Sample.entry "B" true None None];
          backend := [];
          trace := [Called (switch_account (str "B")); Called list_accounts] |}
  /\ run Script.backend (Hook.importFromFile true (str "p") (str "n")) before
       [Script.Accept (add_account_from_file (str "p") (str "n"))
          (Sample.account "B" true);
        Script.Accept list_accounts listing;
        Script.Accept refresh_all_accounts_usage
          [Sample.reading "B" 7%float]] []
     = {| outcome := Resolved tt;
          final :=
            Sample.registry
              [Sample.entry "A" false None (Some false);
               Sample.entry "B" true (Some (Sample.reading "B" 7%float))
                 (Some false)];
          backend := [];
          trace := [Called (add_account_from_file (str "p") (str "n"));
                    Called list_accounts;
                    Called refresh_all_accounts_usage] |}.
Proof.
  intros before listing.
  pose proof (@mutations_reload_after_success true (str "B") (str "n")
                (str "p") (str "n") _ Script.backend before
                [Script.Accept (switch_account (str "B")) tt;
                 Script.Accept list_accounts listing]
                [Script.Accept list_accounts listing] [] []
                (Sample.account "B" true) listing [Sample.reading "B" 7%float])
    as (Hpattern & Hswitch & _).
  pose proof (@mutations_reload_after_success true (str "B") (str "n")
                (str "p") (str "n") _ Script.backend before
                [Script.Accept (add_account_from_file (str "p") (str "n"))
                   (Sample.account "B" true);
                 Script.Accept list_accounts listing;
                 Script.Accept refresh_all_accounts_usage
                   [Sample.reading "B" 7%float]]
                [Script.Accept list_accounts listing;
                 Script.Accept refresh_all_accounts_usage
                   [Sample.reading "B" 7%float]]
                [Script.Accept refresh_all_accounts_usage
                   [Sample.reading "B" 7%float]] []
                (Sample.account "B" true) listing [Sample.reading "B" 7%float])
    as (_ & _ & _ & _ & Himport).
  split; [|split].
  - exact (proj1 (proj2 (proj1 Hpattern))
             before before Sample.refuse_all Sample.refused eq_refl).
  - exact (Hswitch eq_refl eq_refl).
  - exact (Himport eq_refl eq_refl eq_refl).
Defined.

(** ** The login flow of the modal *)

Lemma session_pending (m : Modal.State) :
  Modal.session m = Modal.PendingLogin <-> Modal.oauthPending m = true.
Proof.
  unfold Modal.session.
  destruct (Modal.oauthPending m), (Modal.loading m);
    split; congruence.
Qed.

(** C7: with a login pending, closing the modal and clicking the import
    tab each send [cancel_login] to the backend, as the first thing they
    do and as their only command, and leave the modal with the pending
    flag down and the session idle, whatever the backend answers. *)
Theorem cancelling_pending_login
  (isTauri : bool) (G : Type)
  (gateway : forall c : Command, G -> Result (answer c) * G)
  (w : App.State) (g : G) :
  Modal.session (App.modal w) = Modal.PendingLogin ->
  let closed := run gateway (App.handleClose isTauri (App.modal w)) w g [] in
  let switched :=
    run gateway (App.tab_onClick isTauri (App.modal w) Modal.import) w g [] in
  (hd_error (trace closed) = Some (Called cancel_login)
   /\ calls (trace closed) = [cancel_login]
   /\ outcome closed = Resolved tt
   /\ existsb Polling.is_unhandled (trace closed) = false
   /\ Modal.oauthPending (App.modal (final closed)) = false
   /\ Modal.session (App.modal (final closed)) = Modal.Idle
   /\ App.isAddModalOpen (final closed) = false)
  /\ (hd_error (trace switched) = Some (Called cancel_login)
      /\ calls (trace switched) = [cancel_login]
      /\ outcome switched = Resolved tt
      /\ existsb Polling.is_unhandled (trace switched) = false
      /\ Modal.oauthPending (App.modal (final switched)) = false
      /\ Modal.session (App.modal (final switched)) = Modal.Idle
      /\ Modal.activeTab (App.modal (final switched)) = Modal.import).
Proof.
  intros Hp closed switched. apply session_pending in Hp.
  subst closed switched.
  unfold App.handleClose, App.tab_onClick, Modal.handleClose, Modal.tab_onClick.
  rewrite Hp. simpl.
  destruct (gateway cancel_login g) as [[[]|e] g']; simpl; repeat split.
Qed.

Lemma cancelling_pending_login_witness :
  let w := SamplePage.page SamplePage.pending_modal in
  let closed :=
    run (Sample.stateless Sample.refuse_all)
        (App.handleClose true (App.modal w)) w tt [] in
  calls (trace closed) = [cancel_login]
  /\ Modal.session (App.modal (final closed)) = Modal.Idle.
Proof.
  pose proof (@cancelling_pending_login true unit
                (Sample.stateless Sample.refuse_all)
                (SamplePage.page SamplePage.pending_modal) tt eq_refl) as H.
  split; [exact (proj1 (proj2 (proj1 H))) |].
  exact (proj1 (proj2 (proj2 (proj2 (proj2 (proj2 (proj1 H))))))).
Defined.

(** C8: [handleOAuthLogin] with a name that is empty or made of white
    space only sends nothing to the backend and writes nothing to the
    console: it sets the modal's error to the validation message and
    returns, with every other field of the page, the two session flags
    among them, as it was. *)
Theorem blank_name_starts_no_login
  (isTauri : bool) (G : Type)
  (gateway : forall c : Command, G -> Result (answer c) * G)
  (w : App.State) (g : G) :
  forallb isWhiteSpace (Modal.name (App.modal w)) = true ->
  let started := advance (App.handleOAuthLogin isTauri (App.modal w)) w in
  let done := run gateway (App.handleOAuthLogin isTauri (App.modal w)) w g [] in
  trace done = []
  /\ backend done = g
  /\ outcome done = Resolved tt
  /\ waiting_for started = None
  /\ emitted started = [] /\ spawned started = []
  /\ final done = current started
  /\ final done
     = App.set_modal
         {| Modal.activeTab := Modal.activeTab (App.modal w);
            Modal.name := Modal.name (App.modal w);
            Modal.filePath := Modal.filePath (App.modal w);
            Modal.loading := Modal.loading (App.modal w);
            Modal.error := Some (str "Please enter an account name");
            Modal.oauthPending := Modal.oauthPending (App.modal w) |}
         w
  /\ Modal.session (App.modal (final done)) = Modal.session (App.modal w).
Proof.
  intros Hblank started done. subst started done.
  apply trim_empty_iff in Hblank.
  unfold App.handleOAuthLogin, Modal.handleOAuthLogin.
  rewrite Hblank. simpl. repeat split.
Qed.

Lemma blank_name_starts_no_login_witness :
  let w := SamplePage.page SamplePage.blank_modal in
  let done :=
    run (Sample.stateless Sample.refuse_all)
        (App.handleOAuthLogin true (App.modal w)) w tt [] in
  trace done = []
  /\ Modal.error (App.modal (final done))
     = Some (str "Please enter an account name")
  /\ Modal.session (App.modal (final done)) = Modal.Idle.
Proof.
  pose proof (@blank_name_starts_no_login true unit
                (Sample.stateless Sample.refuse_all)
                (SamplePage.page SamplePage.blank_modal) tt eq_refl) as H.
  split; [exact (proj1 H) |].
  split; reflexivity.
Defined.

(** ** The polling loops *)


Section ClockFacts.
Variable G : Type.
Variable gateway : forall c : Command, G -> Result (answer c) * G.






End ClockFacts.


(** The first render: the listing and the process check are sent by
    the two effects, the usage refresh once the listing has come back, and
    every call gets its answer. *)
Lemma mounted_sends_in_order
  (isTauri : bool) (G : Type)
  (gateway : forall c : Command, G -> Result (answer c) * G) (g : G) :
  let c := Polling.commit (Polling.effects isTauri) App.initial in
  calls (Polling.journal_committed c)
  = (if isTauri then [list_accounts; check_codex_processes]
     else [refresh_all_accounts_usage])
  /\ Polling.unanswered
       (Polling.settle gateway 3 (Polling.waiting c)
          (Polling.page_committed c) g (Polling.journal_committed c)) = []
  /\ calls (Polling.journal (Polling.mounted gateway isTauri g))
     = (if isTauri
        then [list_accounts; check_codex_processes;
              refresh_all_accounts_usage]
        else [refresh_all_accounts_usage]).
Proof.
  destruct isTauri; simpl.
  - destruct (gateway list_accounts g) as [[l|e] g1]; simpl;
      destruct (gateway check_codex_processes g1) as [[p|e1] g2]; simpl;
      destruct (gateway refresh_all_accounts_usage g2) as [[ul|e2] g3]; simpl;
      repeat split.
  - destruct (gateway refresh_all_accounts_usage g) as [[ul|e2] g3]; simpl;
      repeat split.
Qed.

(** ** The model at work on the scenarios of the specification *)

Example trim_strips_both_ends :
  trim ([32; 9] ++ str "my account" ++ [160; 10])%N = str "my account".
Proof. reflexivity. Qed.

Example trim_keeps_inner_space :
  truthy (trim (str " a b ")) = true /\ truthy (trim [32; 8232; 65279]%N) = false.
Proof. split; reflexivity. Qed.

Example Map_new_last_entry_wins :
  Map_get (Map_new [(str "A", 1%nat); (str "B", 2%nat); (str "A", 3%nat)]) (str "A")
  = Some 3%nat
  /\ Map_new [(str "A", 1%nat); (str "B", 2%nat); (str "A", 3%nat)]
     = [(str "A", 3%nat); (str "B", 2%nat)].
Proof. split; reflexivity. Qed.

(** Registry A (active, usage 40), B (inactive, no usage); the batched
    refresh reports A only: A gets the new reading, B stays without. *)
Example scenario_refresh_reports_active_only :
  let before :=
    Sample.registry
      [Sample.entry "A" true (Some (Sample.reading "A" 40%float)) None;
       Sample.entry "B" false None None] in
  Hook.accounts
    (current (resume Hook.refreshUsage before
                (Sample.usage_answer [Sample.reading "A" 55%float]) before))
  = [Sample.entry "A" true (Some (Sample.reading "A" 55%float)) (Some false);
     Sample.entry "B" false None (Some false)].
Proof. reflexivity. Qed.

(** Then [switchAccount(B)]: the listing comes back with B active, and the
    reload keeps A's reading and leaves B without one. *)
Example scenario_switch_then_reload :
  let before :=
    Sample.registry
      [Sample.entry "A" true (Some (Sample.reading "A" 55%float)) (Some false);
       Sample.entry "B" false None (Some false)] in
  let backend (c : Command) (g : unit) : Result (answer c) * unit :=
    match c with
    | switch_account _ => (Resolved tt, g)
    | list_accounts =>
        (Resolved [Sample.account "A" false; Sample.account "B" true], g)
    | _ => (Rejected Sample.refused, g)
    end in
  let r := run backend (Hook.switchAccount true (str "B")) before tt [] in
  outcome r = Resolved tt
  /\ calls (trace r) = [switch_account (str "B"); list_accounts]
  /\ Hook.accounts (final r)
     = [Sample.entry "A" false (Some (Sample.reading "A" 55%float)) None;
        Sample.entry "B" true None None].
Proof. repeat split. Qed.

(** A reload whose listing fails after an accepted switch: the call ends
    normally, the failure is in the hook's [error], the registry stays. *)
Example scenario_switch_then_failed_reload :
  let before :=
    Sample.registry
      [Sample.entry "A" true (Some (Sample.reading "A" 55%float)) None] in
  let backend (c : Command) (g : unit) : Result (answer c) * unit :=
    match c with
    | switch_account _ => (Resolved tt, g)
    | _ => (Rejected Sample.refused, g)
    end in
  let r := run backend (Hook.switchAccount true (str "A")) before tt [] in
  outcome r = Resolved tt
  /\ Hook.accounts (final r) = Hook.accounts before
  /\ Hook.error (final r) = Some (str "backend unavailable").
Proof. repeat split. Qed.

(** The whole login, from the click to the closed modal. *)
Example scenario_login_completes :
  let m := {| Modal.activeTab := Modal.oauth; Modal.name := str " work ";
              Modal.filePath := []; Modal.loading := false;
              Modal.error := None; Modal.oauthPending := false |} in
  let backend (c : Command) (g : unit) : Result (answer c) * unit :=
    match c with
    | start_login _ =>
        (Resolved {| auth_url := str "https://auth"; callback_port := 1455%float |}, g)
    | openUrl _ => (Resolved tt, g)
    | complete_login => (Resolved (Sample.account "W" true), g)
    | list_accounts => (Resolved [Sample.account "W" true], g)
    | refresh_all_accounts_usage => (Resolved [Sample.reading "W" 1%float], g)
    | _ => (Rejected Sample.refused, g)
    end in
  let r := run backend (App.handleOAuthLogin true m) (SamplePage.page m) tt [] in
  calls (trace r)
  = [start_login (str "work"); openUrl (str "https://auth"); complete_login;
     list_accounts; refresh_all_accounts_usage]
  /\ Hook.accounts (App.hook (final r))
     = [Sample.entry "W" true (Some (Sample.reading "W" 1%float)) (Some false)]
  /\ App.modal (final r) = Modal.initial
  /\ App.isAddModalOpen (final r) = false.
Proof. repeat split. Qed.

(** The clock at work: 7 seconds with a backend that refuses everything. *)
Example seven_seconds_of_refusals :
  map (fun t => (Polling.rounds t, Polling.alive t))
      (Polling.timers
         (Polling.elapse (Sample.stateless Sample.refuse_all) 7000
            (Polling.mounted (Sample.stateless Sample.refuse_all) true tt)))
  = [(0%N, true); (2%N, true)].
Proof. vm_compute. reflexivity. Qed.

(** The clock does stop a loop whose handler lets a rejection escape. *)
Example unguarded_loop_stops :
  let x0 := {| Polling.clock := 59999; Polling.page := App.initial;
               Polling.remote := tt; Polling.journal := [];
               Polling.timers := [Polling.arm unguarded_usage_interval;
                                  Polling.arm Polling.usage_interval] |} in
  map (fun t => (Polling.rounds t, Polling.alive t))
      (Polling.timers (Polling.elapse (Sample.stateless Sample.refuse_all) 1 x0))
  = [(1%N, false); (1%N, true)].
Proof. vm_compute. reflexivity. Qed.

(** * Further properties of the hook *)

Section HookFacts.
Variable G : Type.
Variable gateway : forall c : Command, G -> Result (answer c) * G.

(** X1: [loadAccounts] never rejects and always ends with [loading]
    down.  Inside Tauri it sends [list_accounts] and nothing else; outside
    it sends nothing and changes nothing but [loading]. *)
Theorem loadAccounts_never_rejects
  (isTauri preserveUsage : bool) (s : Hook.State) (g : G) (tr : list Event) :
  let r := run gateway (Hook.loadAccounts isTauri preserveUsage) s g tr in
  outcome r = Resolved tt
  /\ Hook.loading (final r) = false
  /\ trace r = tr ++ (if isTauri then [Called list_accounts] else [])
  /\ (if isTauri then backend r = snd (gateway list_accounts g)
      else backend r = g
           /\ Hook.accounts (final r) = Hook.accounts s
           /\ Hook.error (final r) = Hook.error s).
Proof.
  destruct isTauri; simpl.
  - destruct (gateway list_accounts g) as [[l|e] g']; simpl;
      [destruct preserveUsage|]; repeat split.
  - rewrite app_nil_r. repeat split.
Qed.

(** X2: after an accepted [delete_account] and a listing that comes
    back, the registry is the listing with no snapshot and no loading flag
    on any account, the ones that were there before included, and no usage
    query has been sent: [deleteAccount] reloads without preserving and
    does not refresh. *)
Theorem deleteAccount_leaves_no_usage
  (accountId : js_string) (s : Hook.State) (g g1 g2 : G)
  (accountList : list AccountInfo) :
  gateway (delete_account accountId) g = (Resolved tt, g1) ->
  gateway list_accounts g1 = (Resolved accountList, g2) ->
  let r := run gateway (Hook.deleteAccount true accountId) s g [] in
  outcome r = Resolved tt
  /\ trace r = [Called (delete_account accountId); Called list_accounts]
  /\ map info (Hook.accounts (final r)) = accountList
  /\ Forall (fun a => usage a = None /\ usageLoading a = None)
            (Hook.accounts (final r))
  /\ Hook.error (final r) = None.
Proof.
  intros H1 H2. simpl. rewrite H1. simpl. rewrite H2. simpl.
  repeat split.
  - unfold Hook.replace_update. rewrite map_map. apply map_id.
  - unfold Hook.replace_update. apply Forall_map, Forall_forall.
    intros a _. split; reflexivity.
Qed.

(** X3: once the mutation command is accepted, [switchAccount],
    [renameAccount] and [deleteAccount] resolve whatever happens to the
    reload: a failed listing is not thrown to the caller, it ends in the
    hook's [error] with the registry as it was. *)
Theorem accepted_mutation_hides_reload_failure
  (accountId newName : js_string) :
  hides_reload_failure gateway
    (Hook.switchAccount true accountId) (switch_account accountId)
  /\ hides_reload_failure gateway
       (Hook.renameAccount true accountId newName)
       (rename_account accountId newName)
  /\ hides_reload_failure gateway
       (Hook.deleteAccount true accountId) (delete_account accountId).
Proof.
  split; [|split]; intros s g g1 g2 v e H1 H2;
    simpl in *; rewrite H1; simpl; rewrite H2; simpl; repeat split.
Qed.
End HookFacts.

Lemma deleteAccount_leaves_no_usage_witness :
  let before :=
    Sample.registry
      [Sample.entry "A" true (Some (Sample.reading "A" 40%float)) None;
       Sample.entry "B" false (Some (Sample.reading "B" 10%float)) None] in
  let r := run Script.backend (Hook.deleteAccount true (str "B")) before
             [Script.Accept (delete_account (str "B")) tt;
              Script.Accept list_accounts [Sample.account "A" true]] [] in
  Hook.accounts (final r) = [Sample.entry "A" true None None]
  /\ trace r = [Called (delete_account (str "B")); Called list_accounts].
Proof.
  split; [reflexivity|].
  exact (proj1 (proj2
    (@deleteAccount_leaves_no_usage _ Script.backend (str "B")
       (Sample.registry
          [Sample.entry "A" true (Some (Sample.reading "A" 40%float)) None;
           Sample.entry "B" false (Some (Sample.reading "B" 10%float)) None])
       [Script.Accept (delete_account (str "B")) tt;
        Script.Accept list_accounts [Sample.account "A" true]]
       [Script.Accept list_accounts [Sample.account "A" true]]
       [] [Sample.account "A" true] eq_refl eq_refl))).
Defined.

Lemma accepted_mutation_hides_reload_failure_witness :
  let before :=
    Sample.registry
      [Sample.entry "A" true (Some (Sample.reading "A" 40%float)) None] in
  let r := run Script.backend (Hook.renameAccount true (str "A") (str "work"))
             before
             [Script.Accept (rename_account (str "A") (str "work")) tt;
              Script.Refuse list_accounts (ErrorObject (str "disk"))] [] in
  outcome r = Resolved tt
  /\ Hook.accounts (final r) = Hook.accounts before
  /\ Hook.error (final r) = Some (str "disk")
  /\ Hook.loading (final r) = false
  /\ trace r = [Called (rename_account (str "A") (str "work"));
                Called list_accounts].
Proof.
  exact (proj1 (proj2
    (@accepted_mutation_hides_reload_failure _ Script.backend
       (str "A") (str "work")))
    (Sample.registry
       [Sample.entry "A" true (Some (Sample.reading "A" 40%float)) None])
    [Script.Accept (rename_account (str "A") (str "work")) tt;
     Script.Refuse list_accounts (ErrorObject (str "disk"))]
    [Script.Refuse list_accounts (ErrorObject (str "disk"))]
    [] tt (ErrorObject (str "disk")) eq_refl eq_refl).
Defined.

(** When the batched usage query fails, [refreshUsage] logs the
    failure, throws it as it came and leaves the whole hook state as it
    was: no snapshot changes, and the loading flags that are up stay up. *)
Theorem refreshUsage_failure_changes_nothing
  (s s' : Hook.State) (r : forall c : Command, Result (answer c))
  (e : js_error) :
  r refresh_all_accounts_usage = Rejected e ->
  resume Hook.refreshUsage s r s' =
  {| reached := Settled (Rejected e);
     current := s';
     emitted := [Logged (str "Failed to refresh usage:") e];
     spawned := [] |}.
Proof. intros H. unfold resume; simpl. rewrite H. reflexivity. Qed.

Lemma refreshUsage_failure_changes_nothing_witness :
  let s' := Sample.registry
              [Sample.entry "A" true (Some (Sample.reading "A" 40%float))
                 (Some true)] in
  current (resume Hook.refreshUsage s' Sample.refuse_all s') = s'.
Proof.
  intros s'.
  exact (f_equal (@current _ _)
    (@refreshUsage_failure_changes_nothing s' s' Sample.refuse_all
       Sample.refused eq_refl)).
Defined.

(** X4: of two batched responses applied one after the other, only the
    later one shows: every snapshot is the later response's, or absent if
    the later response does not name the id, whatever the earlier response
    held. *)
Theorem later_batched_response_wins
  (s1 s2 s' : Hook.State) (r1 r2 : forall c : Command, Result (answer c))
  (first later : list UsageInfo) :
  r1 refresh_all_accounts_usage = Resolved first ->
  r2 refresh_all_accounts_usage = Resolved later ->
  current (resume Hook.refreshUsage s2 r2
             (current (resume Hook.refreshUsage s1 r1 s')))
  = current (resume Hook.refreshUsage s2 r2 s').
Proof.
  intros H1 H2.
  rewrite (@refreshUsage_resumed s1 s' r1 first H1).
  rewrite !(@refreshUsage_resumed s2 _ r2 later H2). simpl.
  unfold Hook.overlay_update. rewrite map_map. reflexivity.
Qed.

Lemma later_batched_response_wins_witness :
  let s' := Sample.registry
              [Sample.entry "A" true None None;
               Sample.entry "B" false None None] in
  Hook.accounts
    (current (resume Hook.refreshUsage s'
                (Sample.usage_answer [Sample.reading "A" 55%float])
                (current (resume Hook.refreshUsage s'
                            (Sample.usage_answer [Sample.reading "B" 10%float])
                            s'))))
  = [Sample.entry "A" true (Some (Sample.reading "A" 55%float)) (Some false);
     Sample.entry "B" false None (Some false)].
Proof.
  intros s'.
  rewrite (@later_batched_response_wins s' s' s'
             (Sample.usage_answer [Sample.reading "B" 10%float])
             (Sample.usage_answer [Sample.reading "A" 55%float])
             [Sample.reading "B" 10%float] [Sample.reading "A" 55%float]
             eq_refl eq_refl).
  reflexivity.
Defined.

Lemma find_by_id_unique (l : list AccountWithUsage) (a : AccountWithUsage) :
  NoDup (ids l) -> In a l ->
  find (fun e => strict_eq (id (info e)) (id (info a))) l = Some a.
Proof.
  unfold ids. induction l as [|b l IH]; simpl; intros Hnd Hin; [contradiction|].
  inversion Hnd as [|x xs Hnotin Hnd']; subst.
  destruct Hin as [->|Hin].
  - rewrite strict_eq_refl. reflexivity.
  - destruct (strict_eq (id (info b)) (id (info a))) eqn:E.
    + apply strict_eq_true in E. exfalso. apply Hnotin. rewrite E.
      apply (in_map (fun a => id (info a))). exact Hin.
    + apply IH; assumption.
Qed.

(** X5: a reload that preserves usage and gets back the accounts the
    registry already holds, ids distinct, gives the same registry with the
    same snapshots; only the loading flags are dropped. *)
Theorem reload_of_same_accounts_keeps_snapshots
  (s s' : Hook.State) (r : forall c : Command, Result (answer c)) :
  NoDup (ids (Hook.accounts s')) ->
  r list_accounts = Resolved (map info (Hook.accounts s')) ->
  Hook.accounts (current (resume (Hook.loadAccounts true true) s r s'))
  = map (fun a => {| info := info a; usage := usage a; usageLoading := None |})
        (Hook.accounts s').
Proof.
  intros Hnd Hr.
  rewrite (@loadAccounts_resolved true s s' r _ Hr); simpl.
  unfold Hook.preserve_update. rewrite map_map.
  apply map_ext_in. intros a Ha. unfold with_usage; simpl.
  rewrite usageMap_get_last.
  rewrite (@find_by_id_unique (rev (Hook.accounts s')) a).
  - reflexivity.
  - unfold ids. rewrite map_rev. apply NoDup_rev. exact Hnd.
  - apply in_rev in Ha. exact Ha.
Qed.

Lemma reload_of_same_accounts_keeps_snapshots_witness :
  let s' := Sample.registry
              [Sample.entry "A" true (Some (Sample.reading "A" 40%float))
                 (Some true);
               Sample.entry "B" false None None] in
  Hook.accounts
    (current (resume (Hook.loadAccounts true true) s'
                (Sample.list_answer
                   [Sample.account "A" true; Sample.account "B" false]) s'))
  = [Sample.entry "A" true (Some (Sample.reading "A" 40%float)) None;
     Sample.entry "B" false None None].
Proof.
  intros s'.
  apply (@reload_of_same_accounts_keeps_snapshots s' s'
           (Sample.list_answer
              [Sample.account "A" true; Sample.account "B" false])).
  - repeat constructor; simpl; intuition discriminate.
  - reflexivity.
Defined.

(** X6: two single refreshes for different ids do not interfere: when
    their answers, good or bad, arrive in one order or in the other, the
    registry ends the same. *)
Theorem single_refreshes_of_distinct_ids_commute
  (idA idB : js_string) (sA sB s' : Hook.State)
  (rA rB : forall c : Command, Result (answer c)) :
  idA <> idB ->
  current (resume (Hook.refreshSingleUsage idB) sB rB
             (current (resume (Hook.refreshSingleUsage idA) sA rA s')))
  = current (resume (Hook.refreshSingleUsage idA) sA rA
               (current (resume (Hook.refreshSingleUsage idB) sB rB s'))).
Proof.
  intros Hne.
  assert (Hcomm : forall (f g : AccountWithUsage -> AccountWithUsage)
                         (l : list AccountWithUsage),
             (forall a, info (f a) = info a) ->
             (forall a, info (g a) = info a) ->
             map (fun a => if strict_eq (id (info a)) idB then g a else a)
               (map (fun a => if strict_eq (id (info a)) idA then f a else a) l)
             = map (fun a => if strict_eq (id (info a)) idA then f a else a)
                 (map (fun a => if strict_eq (id (info a)) idB then g a else a) l)).
  { intros f g l Hf Hg. rewrite !map_map. apply map_ext. intros a.
    destruct (strict_eq (id (info a)) idA) eqn:EA;
      destruct (strict_eq (id (info a)) idB) eqn:EB;
      rewrite ?Hf, ?Hg, ?EA, ?EB; try reflexivity.
    apply strict_eq_true in EA, EB. congruence. }
  destruct (rA (get_usage idA)) as [uA|eA] eqn:HA;
    destruct (rB (get_usage idB)) as [uB|eB] eqn:HB;
    repeat first
      [ rewrite (@refreshSingleUsage_resolved idA sA _ rA uA HA)
      | rewrite (@refreshSingleUsage_rejected idA sA _ rA eA HA)
      | rewrite (@refreshSingleUsage_resolved idB sB _ rB uB HB)
      | rewrite (@refreshSingleUsage_rejected idB sB _ rB eB HB) ];
    simpl; unfold with_accounts; simpl; f_equal;
    unfold Hook.store_usage, Hook.clear_loading;
    apply Hcomm; reflexivity.
Qed.

Lemma single_refreshes_of_distinct_ids_commute_witness :
  let s' := Sample.registry
              [Sample.entry "A" true None (Some true);
               Sample.entry "B" false None (Some true)] in
  current (resume (Hook.refreshSingleUsage (str "B")) s' Sample.refuse_all
             (current (resume (Hook.refreshSingleUsage (str "A")) s'
                         (Sample.single_answer (Sample.reading "A" 55%float)) s')))
  = current (resume (Hook.refreshSingleUsage (str "A")) s'
               (Sample.single_answer (Sample.reading "A" 55%float))
               (current (resume (Hook.refreshSingleUsage (str "B")) s'
                           Sample.refuse_all s'))).
Proof.
  intros s'.
  apply (@single_refreshes_of_distinct_ids_commute (str "A") (str "B")).
  vm_compute. discriminate.
Defined.

(** * Further properties of the modal *)

Lemma truthy_trim (s : js_string) :
  truthy (trim s) = negb (forallb isWhiteSpace s).
Proof.
  destruct (forallb isWhiteSpace s) eqn:E.
  - apply trim_empty_iff in E. rewrite E. reflexivity.
  - destruct (trim s) eqn:T; [|reflexivity].
    apply trim_empty_iff in T. congruence.
Qed.

Section ModalFacts.
Variable G : Type.
Variable gateway : forall c : Command, G -> Result (answer c) * G.
Variable isTauri : bool.

(** X7: [handleImportFile] checks the name first and the file path
    second; with a blank name, or with a name and a blank path, it sends
    nothing and only sets the error to the message of the failed check. *)
Theorem import_is_validated_locally (w : App.State) (g : G) :
  let m := App.modal w in
  let r := run gateway (App.handleImportFile isTauri m) w g [] in
  (forallb isWhiteSpace (Modal.name m) = true ->
   r = {| outcome := Resolved tt;
          final := App.set_modal
                     (with_modal_error
                        (Some (str "Please enter an account name")) m) w;
          backend := g; trace := [] |})
  /\ (forallb isWhiteSpace (Modal.name m) = false ->
      forallb isWhiteSpace (Modal.filePath m) = true ->
      r = {| outcome := Resolved tt;
             final := App.set_modal
                        (with_modal_error
                           (Some (str "Please select an auth.json file")) m) w;
             backend := g; trace := [] |}).
Proof.
  intros m r. subst r.
  unfold App.handleImportFile, Modal.handleImportFile.
  rewrite !truthy_trim. fold m.
  split.
  - intros ->. reflexivity.
  - intros -> ->. reflexivity.
Qed.

(** X8: when the backend refuses the import, [handleImportFile] has
    sent that one command, with the path and the name trimmed; the modal
    stays open with the text of the refusal, the form as typed and
    [loading] down, and the registry is untouched. *)
Theorem refused_import_keeps_modal_open
  (w : App.State) (g g1 : G) (e : js_error) :
  let m := App.modal w in
  let c := add_account_from_file (trim (Modal.filePath m)) (trim (Modal.name m)) in
  forallb isWhiteSpace (Modal.name m) = false ->
  forallb isWhiteSpace (Modal.filePath m) = false ->
  gateway c g = (Rejected e, g1) ->
  let r := run gateway (App.handleImportFile isTauri m) w g [] in
  outcome r = Resolved tt
  /\ trace r = [Called c]
  /\ App.hook (final r) = App.hook w
  /\ App.isAddModalOpen (final r) = App.isAddModalOpen w
  /\ App.modal (final r)
     = {| Modal.activeTab := Modal.activeTab m; Modal.name := Modal.name m;
          Modal.filePath := Modal.filePath m; Modal.loading := false;
          Modal.error := Some (error_text e);
          Modal.oauthPending := Modal.oauthPending m |}.
Proof.
  intros m c Hn Hp Hg r. subst r c.
  unfold App.handleImportFile, Modal.handleImportFile.
  rewrite !truthy_trim. fold m. rewrite Hn, Hp. simpl.
  rewrite Hg. simpl. repeat split.
Qed.

(** X9: when the import and the reload go through and the usage
    refresh that follows fails, [handleImportFile] treats the import as
    failed: the modal stays open with the text of the refresh failure and
    the form as typed, although the registry already shows the new
    listing. *)
Theorem import_with_failed_refresh_looks_failed
  (w : App.State) (g g1 g2 g3 : G) (added : AccountInfo)
  (accountList : list AccountInfo) (e : js_error) :
  let m := App.modal w in
  let c := add_account_from_file (trim (Modal.filePath m)) (trim (Modal.name m)) in
  forallb isWhiteSpace (Modal.name m) = false ->
  forallb isWhiteSpace (Modal.filePath m) = false ->
  gateway c g = (Resolved added, g1) ->
  gateway list_accounts g1 = (Resolved accountList, g2) ->
  gateway refresh_all_accounts_usage g2 = (Rejected e, g3) ->
  let r := run gateway (App.handleImportFile true m) w g [] in
  outcome r = Resolved tt
  /\ calls (trace r) = [c; list_accounts; refresh_all_accounts_usage]
  /\ Hook.accounts (App.hook (final r)) = map spread accountList
  /\ App.isAddModalOpen (final r) = App.isAddModalOpen w
  /\ App.modal (final r)
     = {| Modal.activeTab := Modal.activeTab m; Modal.name := Modal.name m;
          Modal.filePath := Modal.filePath m; Modal.loading := false;
          Modal.error := Some (error_text e);
          Modal.oauthPending := Modal.oauthPending m |}.
Proof.
  intros m c Hn Hp H1 H2 H3 r. subst r c.
  unfold App.handleImportFile, Modal.handleImportFile.
  rewrite !truthy_trim. fold m. rewrite Hn, Hp. simpl.
  rewrite H1. simpl. rewrite H2. simpl. rewrite H3. simpl. repeat split.
Qed.

(** X10: when import, reload and refresh all go through,
    [handleImportFile] closes the modal and resets the form, keeping the
    selected tab, and the registry is the new listing overlaid with the
    usage response.  It has sent the import, the listing and the usage
    query, and, if the render it was clicked in still had a login
    pending, [cancel_login] after them, whose refusal is only logged. *)
Theorem successful_import_closes_modal
  (w : App.State) (g g1 g2 g3 : G) (added : AccountInfo)
  (accountList : list AccountInfo) (usageList : list UsageInfo) :
  let m := App.modal w in
  let c := add_account_from_file (trim (Modal.filePath m)) (trim (Modal.name m)) in
  forallb isWhiteSpace (Modal.name m) = false ->
  forallb isWhiteSpace (Modal.filePath m) = false ->
  gateway c g = (Resolved added, g1) ->
  gateway list_accounts g1 = (Resolved accountList, g2) ->
  gateway refresh_all_accounts_usage g2 = (Resolved usageList, g3) ->
  let r := run gateway (App.handleImportFile true m) w g [] in
  outcome r = Resolved tt
  /\ trace r
     = [Called c; Called list_accounts; Called refresh_all_accounts_usage]
       ++ (if Modal.oauthPending m
           then Called cancel_login
                :: match fst (gateway cancel_login g3) with
                   | Resolved _ => []
                   | Rejected e =>
                       [Logged (str "Failed to cancel login:") e]
                   end
           else [])
  /\ backend r
     = (if Modal.oauthPending m then snd (gateway cancel_login g3) else g3)
  /\ Hook.accounts (App.hook (final r))
     = map (fun a =>
              {| info := a;
                 usage := find (fun u => strict_eq (account_id u) (id a))
                               usageList;
                 usageLoading := Some false |})
           accountList
  /\ App.isAddModalOpen (final r) = false
  /\ App.modal (final r) = reset_modal m.
Proof.
  intros m c Hn Hp H1 H2 H3 r. subst r c.
  unfold App.handleImportFile, Modal.handleImportFile, Modal.handleClose.
  rewrite !truthy_trim. fold m. rewrite Hn, Hp.
  destruct (Modal.oauthPending m) eqn:Ho; simpl;
    rewrite H1; simpl; rewrite H2; simpl; rewrite H3; simpl;
    [destruct (gateway cancel_login g3) as [[[]|e] g4]; simpl|];
    unfold Hook.overlay_update, Hook.replace_update; rewrite map_map;
    repeat split.
Qed.
End ModalFacts.

Lemma import_is_validated_locally_witness :
  let w := SamplePage.page SampleForm.no_file_modal in
  let r := run Script.backend (App.handleImportFile true (App.modal w)) w [] [] in
  trace r = []
  /\ Modal.error (App.modal (final r))
     = Some (str "Please select an auth.json file").
Proof.
  intros w r.
  pose proof (proj2 (@import_is_validated_locally _ Script.backend true
                       (SamplePage.page SampleForm.no_file_modal) [])
                eq_refl eq_refl) as H.
  subst r w. rewrite H. split; reflexivity.
Defined.

Lemma refused_import_keeps_modal_open_witness :
  let w := SamplePage.page SampleForm.import_modal in
  let r := run Script.backend (App.handleImportFile true (App.modal w)) w
             [Script.Refuse (add_account_from_file [] [])
                (ErrorObject (str "not a credential file"))] [] in
  trace r = [Called (add_account_from_file (str "/home/me/auth.json")
                                           (str "work"))]
  /\ App.isAddModalOpen (final r) = true.
Proof.
  pose proof (@refused_import_keeps_modal_open _ Script.backend true
                (SamplePage.page SampleForm.import_modal)
                [Script.Refuse (add_account_from_file [] [])
                   (ErrorObject (str "not a credential file"))]
                [] (ErrorObject (str "not a credential file"))
                eq_refl eq_refl eq_refl) as H.
  split; [exact (proj1 (proj2 H)) | exact (proj1 (proj2 (proj2 (proj2 H))))].
Defined.

Lemma import_with_failed_refresh_looks_failed_witness :
  let w := SamplePage.page SampleForm.import_modal in
  let r := run Script.backend (App.handleImportFile true (App.modal w)) w
             [Script.Accept (add_account_from_file [] [])
                (Sample.account "W" false);
              Script.Accept list_accounts [Sample.account "W" false];
              Script.Refuse refresh_all_accounts_usage
                (ErrorObject (str "offline"))] [] in
  Hook.accounts (App.hook (final r)) = [Sample.entry "W" false None None]
  /\ App.isAddModalOpen (final r) = true
  /\ Modal.error (App.modal (final r)) = Some (str "offline").
Proof.
  pose proof (@import_with_failed_refresh_looks_failed _ Script.backend
                (SamplePage.page SampleForm.import_modal)
                [Script.Accept (add_account_from_file [] [])
                   (Sample.account "W" false);
                 Script.Accept list_accounts [Sample.account "W" false];
                 Script.Refuse refresh_all_accounts_usage
                   (ErrorObject (str "offline"))]
                _ _ _ (Sample.account "W" false) [Sample.account "W" false]
                (ErrorObject (str "offline"))
                eq_refl eq_refl eq_refl eq_refl eq_refl) as H.
  split; [exact (proj1 (proj2 (proj2 H)))|].
  split; [exact (proj1 (proj2 (proj2 (proj2 H))))|].
  rewrite (proj2 (proj2 (proj2 (proj2 H)))). reflexivity.
Defined.

Lemma successful_import_closes_modal_witness :
  let script :=
    [Script.Accept (add_account_from_file [] []) (Sample.account "W" false);
     Script.Accept list_accounts [Sample.account "W" false];
     Script.Accept refresh_all_accounts_usage [Sample.reading "W" 3%float];
     Script.Refuse cancel_login (Thrown (str "no login"))] in
  let w := SamplePage.page SampleForm.import_modal in
  let r := run Script.backend (App.handleImportFile true (App.modal w)) w
             script [] in
  let w' := SamplePage.page SampleForm.import_while_pending in
  let r' := run Script.backend (App.handleImportFile true (App.modal w')) w'
              script [] in
  (App.isAddModalOpen (final r) = false
   /\ App.modal (final r) = reset_modal SampleForm.import_modal
   /\ calls (trace r)
      = [add_account_from_file (str "/home/me/auth.json") (str "work");
         list_accounts; refresh_all_accounts_usage])
  /\ (App.isAddModalOpen (final r') = false
      /\ App.modal (final r') = reset_modal SampleForm.import_while_pending
      /\ calls (trace r')
         = [add_account_from_file (str "/home/me/auth.json") (str "work");
            list_accounts; refresh_all_accounts_usage; cancel_login]).
Proof.
  intros script w r w' r'.
  pose proof (@successful_import_closes_modal _ Script.backend
                (SamplePage.page SampleForm.import_modal) script
                _ _ _ (Sample.account "W" false) [Sample.account "W" false]
                [Sample.reading "W" 3%float]
                eq_refl eq_refl eq_refl eq_refl eq_refl) as H.
  pose proof (@successful_import_closes_modal _ Script.backend
                (SamplePage.page SampleForm.import_while_pending) script
                _ _ _ (Sample.account "W" false) [Sample.account "W" false]
                [Sample.reading "W" 3%float]
                eq_refl eq_refl eq_refl eq_refl eq_refl) as H'.
  cbv zeta in H, H'.
  destruct H as (_ & Ht & _ & _ & Ho & Hm).
  destruct H' as (_ & Ht' & _ & _ & Ho' & Hm').
  split; (split; [assumption|]); (split; [assumption|]).
  - subst r w. rewrite Ht. reflexivity.
  - subst r' w'. rewrite Ht'. reflexivity.
Defined.

(** * Further properties of the login flow *)

Section LoginFacts.
Variable G : Type.
Variable gateway : forall c : Command, G -> Result (answer c) * G.
Variable isTauri : bool.

(** X11: the login walks through its states.  From a modal at rest
    with a usable name, [handleOAuthLogin] first waits for [start_login],
    sent with the trimmed name, with the session requesting and the old
    error cleared; the authorization URL takes it to pending, waiting for
    [openUrl] of that URL and then for [complete_login]; a refusal of
    [start_login] or of [complete_login] ends the call normally with the
    session idle and the text of the refusal shown. *)
Theorem login_walks_through_its_states
  (w : App.State) (r : forall c : Command, Result (answer c))
  (login : OAuthLoginInfo) :
  let m := App.modal w in
  forallb isWhiteSpace (Modal.name m) = false ->
  Modal.oauthPending m = false ->
  let x1 := advance (App.handleOAuthLogin isTauri m) w in
  let x2 := answered x1 r (current x1) in
  let x3 := answered x2 r (current x2) in
  let x4 := answered x3 r (current x3) in
  (waiting_for x1 = Some (start_login (trim (Modal.name m)))
   /\ Modal.session (App.modal (current x1)) = Modal.Requesting
   /\ Modal.error (App.modal (current x1)) = None)
  /\ (forall e, r (start_login (trim (Modal.name m))) = Rejected e ->
        reached x2 = Settled (Resolved tt)
        /\ Modal.session (App.modal (current x2)) = Modal.Idle
        /\ Modal.error (App.modal (current x2)) = Some (error_text e))
  /\ (r (start_login (trim (Modal.name m))) = Resolved login ->
      (waiting_for x2 = Some (openUrl (auth_url login))
       /\ Modal.session (App.modal (current x2)) = Modal.PendingLogin)
      /\ (r (openUrl (auth_url login)) = Resolved tt ->
          (waiting_for x3 = Some complete_login
           /\ Modal.session (App.modal (current x3)) = Modal.PendingLogin)
          /\ (forall e, r complete_login = Rejected e ->
                reached x4 = Settled (Resolved tt)
                /\ Modal.session (App.modal (current x4)) = Modal.Idle
                /\ Modal.error (App.modal (current x4))
                   = Some (error_text e)))).
Proof.
  intros m Hn Ho x1 x2 x3 x4. subst x4 x3 x2 x1.
  unfold App.handleOAuthLogin, Modal.handleOAuthLogin.
  rewrite truthy_trim. fold m. rewrite Hn.
  unfold answered, Modal.session. simpl. fold m.
  split; [|split].
  - rewrite Ho. repeat split.
  - intros e He. rewrite He. simpl. repeat split.
  - intros Hs. rewrite Hs. simpl. split; [repeat split|].
    intros Hu. rewrite Hu. simpl. split; [repeat split|].
    intros e He. rewrite He. simpl. repeat split.
Qed.

(** X12: when the login has been started and the browser cannot be
    opened, [handleOAuthLogin] shows the failure and goes back to idle
    without telling the backend: [cancel_login] is not sent. *)
Theorem unopened_browser_leaves_login_started
  (w : App.State) (g g1 g2 : G) (login : OAuthLoginInfo) (e : js_error) :
  let m := App.modal w in
  forallb isWhiteSpace (Modal.name m) = false ->
  gateway (start_login (trim (Modal.name m))) g = (Resolved login, g1) ->
  gateway (openUrl (auth_url login)) g1 = (Rejected e, g2) ->
  let r := run gateway (App.handleOAuthLogin isTauri m) w g [] in
  outcome r = Resolved tt
  /\ trace r = [Called (start_login (trim (Modal.name m)));
                Called (openUrl (auth_url login))]
  /\ Modal.session (App.modal (final r)) = Modal.Idle
  /\ Modal.error (App.modal (final r)) = Some (error_text e)
  /\ App.isAddModalOpen (final r) = App.isAddModalOpen w.
Proof.
  intros m Hn H1 H2 r. subst r.
  unfold App.handleOAuthLogin, Modal.handleOAuthLogin.
  rewrite truthy_trim. fold m. rewrite Hn. simpl.
  rewrite H1. simpl. rewrite H2. simpl. repeat split.
Qed.

(** X13: a login started from a modal with no login pending never
    sends [cancel_login], whatever the backend answers at any step: the
    [handleClose] it ends with still sees the pending flag of the render
    the click happened in. *)
Theorem started_login_never_cancels_itself (w : App.State) (g : G) :
  Modal.oauthPending (App.modal w) = false ->
  ~ In cancel_login
       (calls (trace (run gateway
                        (App.handleOAuthLogin isTauri (App.modal w)) w g []))).
Proof.
  intros Ho.
  unfold App.handleOAuthLogin, Modal.handleOAuthLogin, Modal.handleClose.
  rewrite Ho.
  destruct (truthy (trim (Modal.name (App.modal w)))); simpl; [|tauto].
  destruct (gateway (start_login _) g) as [[login|e] g1]; simpl;
    [|intuition discriminate].
  destruct (gateway (openUrl _) g1) as [[[]|e] g2]; simpl;
    [|intuition discriminate].
  destruct (gateway complete_login g2) as [[acct|e] g3]; simpl;
    [|intuition discriminate].
  destruct isTauri; simpl.
  - destruct (gateway list_accounts g3) as [[l|e] g4]; simpl;
      destruct (gateway refresh_all_accounts_usage g4) as [[ul|e'] g5]; simpl;
      intuition discriminate.
  - destruct (gateway refresh_all_accounts_usage g3) as [[ul|e'] g5]; simpl;
      intuition discriminate.
Qed.

(** X14: with no login pending, closing the modal sends nothing: it
    resets the form, keeps the selected tab and closes; and a click on a
    tab sends nothing and only selects the tab and clears the error.  The
    same holds for a click on the OAuth tab while a login is pending. *)
Theorem quiet_close_and_tab_click
  (w : App.State) (g : G) (tab : Modal.Tab) :
  let m := App.modal w in
  (Modal.oauthPending m = false ->
   run gateway (App.handleClose isTauri m) w g []
   = {| outcome := Resolved tt;
        final := {| App.hook := App.hook w; App.modal := reset_modal m;
                    App.isAddModalOpen := false;
                    App.processInfo := App.processInfo w |};
        backend := g; trace := [] |})
  /\ (Modal.oauthPending m = false \/ tab = Modal.oauth ->
      run gateway (App.tab_onClick isTauri m tab) w g []
      = {| outcome := Resolved tt;
           final := App.set_modal
                      {| Modal.activeTab := tab; Modal.name := Modal.name m;
                         Modal.filePath := Modal.filePath m;
                         Modal.loading := Modal.loading m;
                         Modal.error := None;
                         Modal.oauthPending := Modal.oauthPending m |} w;
           backend := g; trace := [] |}).
Proof.
  intros m. subst m. split.
  - intros Ho. unfold App.handleClose, Modal.handleClose.
    rewrite Ho. reflexivity.
  - intros H. unfold App.tab_onClick, Modal.tab_onClick.
    destruct H as [Ho| ->]; [destruct tab; rewrite ?Ho; simpl; rewrite ?Ho|];
      reflexivity.
Qed.
End LoginFacts.

Lemma login_walks_through_its_states_witness :
  let w := SamplePage.page SampleForm.login_modal in
  let x1 := advance (App.handleOAuthLogin true (App.modal w)) w in
  let x2 := answered x1 abandoned_login (current x1) in
  let x3 := answered x2 abandoned_login (current x2) in
  let x4 := answered x3 abandoned_login (current x3) in
  waiting_for x1 = Some (start_login (str "work"))
  /\ waiting_for x2 = Some (openUrl (str "https://auth.example/authorize"))
  /\ waiting_for x3 = Some complete_login
  /\ Modal.error (App.modal (current x4)) = Some (str "login timed out").
Proof.
  pose proof (@login_walks_through_its_states true
                (SamplePage.page SampleForm.login_modal)
                abandoned_login SampleForm.login_info eq_refl eq_refl) as H.
  destruct H as [[H1 _] [_ H3]].
  specialize (H3 eq_refl). destruct H3 as [[H2 _] H4].
  specialize (H4 eq_refl). destruct H4 as [[H5 _] H6].
  specialize (H6 _ eq_refl). destruct H6 as (_ & _ & H7).
  repeat split; assumption.
Defined.

Lemma unopened_browser_leaves_login_started_witness :
  let w := SamplePage.page SampleForm.login_modal in
  let r := run Script.backend (App.handleOAuthLogin true (App.modal w)) w
             [Script.Accept (start_login []) SampleForm.login_info;
              Script.Refuse (openUrl []) (Thrown (str "no browser"))] [] in
  trace r = [Called (start_login (str "work"));
             Called (openUrl (str "https://auth.example/authorize"))]
  /\ Modal.session (App.modal (final r)) = Modal.Idle.
Proof.
  pose proof (@unopened_browser_leaves_login_started _ Script.backend true
                (SamplePage.page SampleForm.login_modal)
                [Script.Accept (start_login []) SampleForm.login_info;
                 Script.Refuse (openUrl []) (Thrown (str "no browser"))]
                _ _ SampleForm.login_info (Thrown (str "no browser"))
                eq_refl eq_refl eq_refl) as H.
  split; [exact (proj1 (proj2 H)) | exact (proj1 (proj2 (proj2 H)))].
Defined.

Lemma started_login_never_cancels_itself_witness :
  let w := SamplePage.page SampleForm.login_modal in
  ~ In cancel_login
       (calls (trace (run (Sample.stateless abandoned_login)
                        (App.handleOAuthLogin true (App.modal w)) w tt []))).
Proof.
  exact (@started_login_never_cancels_itself _
           (Sample.stateless abandoned_login) true
           (SamplePage.page SampleForm.login_modal) tt eq_refl).
Defined.

Lemma quiet_close_and_tab_click_witness :
  let w := SamplePage.page SampleForm.login_modal in
  App.modal (final (run Script.backend (App.handleClose true (App.modal w)) w [] []))
  = reset_modal SampleForm.login_modal
  /\ trace (run Script.backend
              (App.tab_onClick true (App.modal w) Modal.import) w [] []) = [].
Proof.
  pose proof (@quiet_close_and_tab_click _ Script.backend true
                (SamplePage.page SampleForm.login_modal) [] Modal.import) as H.
  cbv zeta in H. destruct H as [H1 H2]. cbv zeta.
  rewrite (H1 eq_refl), (H2 (or_introl eq_refl)). split; reflexivity.
Defined.

(** * Properties of what [App] shows *)

Lemma otherAccounts_all_inactive (l : list AccountWithUsage) :
  filter (fun a => is_active (info a)) l = [] -> otherAccounts l = l.
Proof.
  unfold otherAccounts. induction l as [|a l IH]; simpl; [reflexivity|].
  destruct (is_active (info a)); simpl; [discriminate|].
  intros H. rewrite IH by exact H. reflexivity.
Qed.

Lemma cards_length_le (l : list AccountWithUsage) :
  List.length (cards l) <= S (List.length (otherAccounts l)).
Proof. unfold cards. destruct (activeAccount l); simpl; lia. Qed.

(** X15: the page shows every account on exactly one card when at
    most one account is active: the cards are a rearrangement of the
    registry.  When two or more accounts are active, only the first of
    them gets a card, and the page shows fewer cards than there are
    accounts.  Written out: the card on top is the first active account
    of the registry, and below it come, in the order of the registry, the
    accounts that are not active; with no active account the cards are the
    registry. *)
Theorem cards_cover_registry_iff_one_active
  (l pre post : list AccountWithUsage) (first : AccountWithUsage) :
  let active := filter (fun a => is_active (info a)) l in
  (List.length active <= 1 -> Permutation (cards l) l)
  /\ (2 <= List.length active -> List.length (cards l) < List.length l)
  /\ (forall a, In a (cards l) -> In a l)
  /\ (l = pre ++ first :: post ->
      (forall b, In b pre -> is_active (info b) = false) ->
      is_active (info first) = true ->
      cards l
      = first :: pre ++ filter (fun b => negb (is_active (info b))) post)
  /\ (active = [] -> cards l = l).
Proof.
  intros active. subst active. split; [|split; [|split; [|split]]].
  - induction l as [|a l IH]; [intros _; apply perm_nil|].
    unfold cards, activeAccount, otherAccounts in *. simpl.
    destruct (is_active (info a)) eqn:E; simpl; intros H.
    + fold (otherAccounts l).
      rewrite otherAccounts_all_inactive; [apply Permutation_refl|].
      destruct (filter _ l); [reflexivity | simpl in H; lia].
    + specialize (IH H).
      destruct (find _ l) as [b|].
      * eapply perm_trans; [apply perm_swap|]. apply perm_skip. exact IH.
      * apply perm_skip. exact IH.
  - intros H.
    pose proof (cards_length_le l) as Hc.
    pose proof (filter_length (fun a => is_active (info a)) l) as Hf.
    unfold otherAccounts in Hc. lia.
  - intros a. unfold cards, activeAccount, otherAccounts.
    destruct (find _ l) as [b|] eqn:F; simpl.
    + intros [<-|H].
      * apply find_some in F. tauto.
      * apply filter_In in H. tauto.
    + intros H. apply filter_In in H. tauto.
  - intros -> Hpre Hfirst. unfold cards, activeAccount, otherAccounts.
    assert (Hfind : find (fun a => is_active (info a)) (pre ++ first :: post)
                    = Some first).
    { clear -Hpre Hfirst. induction pre as [|b pre IH]; simpl.
      - rewrite Hfirst. reflexivity.
      - rewrite (Hpre b (or_introl eq_refl)).
        apply IH. intros b' Hb'. apply Hpre. right. exact Hb'. }
    rewrite Hfind. f_equal.
    rewrite filter_app. simpl. rewrite Hfirst. simpl. f_equal.
    clear -Hpre. induction pre as [|b pre IH]; simpl; [reflexivity|].
    rewrite (Hpre b (or_introl eq_refl)). simpl. f_equal.
    apply IH. intros b' Hb'. apply Hpre. right. exact Hb'.
  - intros Hnone. unfold cards, activeAccount.
    rewrite (otherAccounts_all_inactive l Hnone).
    replace (find (fun a => is_active (info a)) l)
      with (@None AccountWithUsage); [reflexivity|].
    symmetry. apply find_none_iff. intros x Hx.
    destruct (is_active (info x)) eqn:E; [|reflexivity].
    assert (In x (filter (fun a => is_active (info a)) l)) as Hin
        by (apply filter_In; split; assumption).
    rewrite Hnone in Hin. contradiction.
Qed.

Lemma cards_cover_registry_iff_one_active_witness :
  let two_active := [Sample.entry "C" false None None;
                     Sample.entry "A" true None None;
                     Sample.entry "B" true None None;
                     Sample.entry "D" false None None] in
  List.length (cards two_active) < List.length two_active
  /\ cards two_active = [Sample.entry "A" true None None;
                         Sample.entry "C" false None None;
                         Sample.entry "D" false None None].
Proof.
  pose proof (cards_cover_registry_iff_one_active
                [Sample.entry "C" false None None;
                 Sample.entry "A" true None None;
                 Sample.entry "B" true None None;
                 Sample.entry "D" false None None]
                [Sample.entry "C" false None None]
                [Sample.entry "B" true None None;
                 Sample.entry "D" false None None]
                (Sample.entry "A" true None None))
    as (_ & Hfewer & _ & Hfirst & _).
  split.
  - apply Hfewer. simpl. lia.
  - apply Hfirst; [reflexivity | | reflexivity].
    intros b [<-|[]]. reflexivity.
Defined.

(** X16: a failed reload hides the registry it has kept: with a
    failure text that is not empty the page shows the failure and no card;
    and as long as the hook's error stands, no usage refresh, batched or
    single, good or bad, changes what the page shows. *)
Theorem load_failure_hides_registry
  (preserveUsage : bool) (accountId : js_string) (s s' : Hook.State)
  (r : forall c : Command, Result (answer c)) (e : js_error) :
  r list_accounts = Rejected e ->
  truthy (error_text e) = true ->
  let failed :=
    current (resume (Hook.loadAccounts true preserveUsage) s r s') in
  Hook.accounts failed = Hook.accounts s'
  /\ mainView failed = LoadFailure (error_text e)
  /\ (forall r' s0,
        mainView (current (resume Hook.refreshUsage s0 r' failed))
        = LoadFailure (error_text e))
  /\ (forall r' s0,
        mainView (current (resume (Hook.refreshSingleUsage accountId)
                             s0 r' failed))
        = LoadFailure (error_text e)).
Proof.
  intros Hr Ht failed. subst failed.
  rewrite (@loadAccounts_rejected preserveUsage s s' r e Hr).
  unfold mainView; simpl. rewrite Ht.
  split; [reflexivity|]. split; [reflexivity|]. split.
  - intros r' s0. unfold resume; simpl.
    destruct (r' refresh_all_accounts_usage); simpl; rewrite ?Ht; reflexivity.
  - intros r' s0. unfold resume; simpl.
    destruct (r' (get_usage accountId)); simpl; rewrite ?Ht; reflexivity.
Qed.

Lemma load_failure_hides_registry_witness :
  let s' := Sample.registry
              [Sample.entry "A" true (Some (Sample.reading "A" 40%float)) None] in
  let failed :=
    current (resume (Hook.loadAccounts true true) s' Sample.refuse_all s') in
  mainView s' = AccountCards (Hook.accounts s')
  /\ mainView failed = LoadFailure (str "backend unavailable")
  /\ mainView (current (resume Hook.refreshUsage s'
                          (Sample.usage_answer [Sample.reading "A" 55%float])
                          failed))
     = LoadFailure (str "backend unavailable").
Proof.
  pose proof (@load_failure_hides_registry true (str "A")
                (Sample.registry
                   [Sample.entry "A" true
                      (Some (Sample.reading "A" 40%float)) None])
                (Sample.registry
                   [Sample.entry "A" true
                      (Some (Sample.reading "A" 40%float)) None])
                Sample.refuse_all Sample.refused eq_refl eq_refl) as H.
  cbv zeta in H. destruct H as (_ & H1 & H2 & _).
  split; [reflexivity|]. split; [exact H1 | apply H2].
Defined.

(** While a reload is waiting for the listing, a registry that
    holds accounts keeps showing its cards, with the error of an earlier
    failure taken down; only an empty registry shows the loading view. *)
Theorem reload_in_flight_keeps_cards
  (preserveUsage : bool) (s : Hook.State) :
  let waiting := current (advance (Hook.loadAccounts true preserveUsage) s) in
  mainView waiting =
  match Hook.accounts s with
  | [] => LoadingAccounts
  | _ :: _ => AccountCards (cards (Hook.accounts s))
  end.
Proof.
  simpl. unfold mainView; simpl.
  destruct (Hook.accounts s); reflexivity.
Qed.

(** X17: after a batched refresh that does not report an account, its
    card, once it is not refreshing itself, shows "Usage unavailable",
    whatever snapshot the account had; and a snapshot that carries an
    error text shows that text instead of its figures. *)
Theorem unreported_account_shows_unavailable
  (s s' : Hook.State) (r : forall c : Command, Result (answer c))
  (usageList : list UsageInfo) (i : nat) (a : AccountWithUsage)
  (card : Card.State) :
  r refresh_all_accounts_usage = Resolved usageList ->
  nth_error (Hook.accounts s') i = Some a ->
  Card.isRefreshing card = false ->
  exists b,
    nth_error (Hook.accounts (current (resume Hook.refreshUsage s r s'))) i
    = Some b
    /\ info b = info a
    /\ ((forall u, In u usageList -> account_id u <> id (info a)) ->
        usageBar (usage b) (Card.usageBar_loading b card)
        = UsageMessage (str "Usage unavailable"))
    /\ (forall u m,
          find (fun u => strict_eq (account_id u) (id (info a))) usageList
          = Some u ->
          error u = Some m -> truthy m = true ->
          usageBar (usage b) (Card.usageBar_loading b card) = UsageMessage m).
Proof.
  intros Hr Ha Hc.
  rewrite (@refreshUsage_resumed s s' r usageList Hr); simpl.
  rewrite overlay_update_nth, Ha; simpl.
  eexists; split; [reflexivity|]. split; [reflexivity|].
  unfold Card.usageBar_loading; simpl. rewrite Hc; simpl. split.
  - intros Habs.
    replace (find _ usageList) with (@None UsageInfo); [reflexivity|].
    symmetry; apply find_none_iff.
    intros u Hu. apply strict_eq_false. auto.
  - intros u m Hf He Ht. rewrite Hf. unfold usageBar.
    rewrite He; simpl. rewrite Ht. reflexivity.
Qed.

Lemma unreported_account_shows_unavailable_witness :
  let s' := Sample.registry
              [Sample.entry "A" true (Some (Sample.reading "A" 40%float)) None;
               Sample.entry "B" false (Some (Sample.reading "B" 10%float)) None] in
  let after := current (resume Hook.refreshUsage s'
                          (Sample.usage_answer [Sample.reading "A" 55%float]) s') in
  exists b,
    nth_error (Hook.accounts after) 1 = Some b
    /\ usageBar (usage b)
         (Card.usageBar_loading b (Card.initial 0%float b))
       = UsageMessage (str "Usage unavailable").
Proof.
  destruct (@unreported_account_shows_unavailable
              (Sample.registry
                 [Sample.entry "A" true (Some (Sample.reading "A" 40%float)) None;
                  Sample.entry "B" false (Some (Sample.reading "B" 10%float)) None])
              (Sample.registry
                 [Sample.entry "A" true (Some (Sample.reading "A" 40%float)) None;
                  Sample.entry "B" false (Some (Sample.reading "B" 10%float)) None])
              (Sample.usage_answer [Sample.reading "A" 55%float])
              [Sample.reading "A" 55%float] 1%nat
              (Sample.entry "B" false (Some (Sample.reading "B" 10%float)) None)
              (Card.initial 0%float (Sample.entry "B" false None (Some false)))
              eq_refl eq_refl eq_refl) as (b & Hb & _ & Hshow & _).
  exists b. split; [exact Hb|].
  injection Hb as <-. reflexivity.
Defined.

(** * Properties of the handlers of [App] *)

Lemma Set_has_add (s : JsSet) (k k' : js_string) :
  Set_has (Set_add s k) k' = Set_has s k' || strict_eq k k'.
Proof.
  unfold Set_add. destruct (Set_has s k) eqn:E.
  - destruct (strict_eq k k') eqn:E'; [|rewrite orb_false_r; reflexivity].
    apply strict_eq_true in E'. subst k'. rewrite E. reflexivity.
  - unfold Set_has. rewrite existsb_app. simpl. rewrite orb_false_r.
    reflexivity.
Qed.

Lemma Set_has_delete (s : JsSet) (k k' : js_string) :
  Set_has (Set_delete s k) k' = Set_has s k' && negb (strict_eq k k').
Proof.
  unfold Set_has, Set_delete. induction s as [|x s IH]; simpl; [reflexivity|].
  destruct (strict_eq x k) eqn:E; simpl; rewrite IH.
  - apply strict_eq_true in E. rewrite E.
    destruct (strict_eq k k'); simpl;
      [rewrite andb_false_r | rewrite andb_true_r]; reflexivity.
  - destruct (strict_eq x k') eqn:E'; simpl; [|reflexivity].
    apply strict_eq_true in E'. apply strict_eq_false in E.
    destruct (strict_eq k k') eqn:E''; [|reflexivity].
    apply strict_eq_true in E''. congruence.
Qed.

(** X18: [toggleMask(id)] flips the mask of [id] and of no other
    account, keeps the set free of repetitions, and undoes itself: after
    two toggles every account is masked exactly if it was before. *)
Theorem toggleMask_flips_one_account (accountId : js_string) (prev : JsSet) :
  Set_has (Shell.toggleMask_update accountId prev) accountId
  = negb (Set_has prev accountId)
  /\ (forall k, k <> accountId ->
        Set_has (Shell.toggleMask_update accountId prev) k = Set_has prev k)
  /\ (forall k,
        Set_has (Shell.toggleMask_update accountId
                   (Shell.toggleMask_update accountId prev)) k
        = Set_has prev k)
  /\ (NoDup prev -> NoDup (Shell.toggleMask_update accountId prev)).
Proof.
  assert (Hflip : forall s,
             Set_has (Shell.toggleMask_update accountId s) accountId
             = negb (Set_has s accountId)).
  { intros s. unfold Shell.toggleMask_update.
    destruct (Set_has s accountId) eqn:E.
    - rewrite Set_has_delete, strict_eq_refl, andb_false_r. reflexivity.
    - rewrite Set_has_add, E, strict_eq_refl. reflexivity. }
  assert (Hother : forall s k, k <> accountId ->
             Set_has (Shell.toggleMask_update accountId s) k = Set_has s k).
  { intros s k Hk. unfold Shell.toggleMask_update.
    assert (strict_eq accountId k = false) as Hf
        by (apply strict_eq_false; congruence).
    destruct (Set_has s accountId).
    - rewrite Set_has_delete, Hf, andb_true_r. reflexivity.
    - rewrite Set_has_add, Hf, orb_false_r. reflexivity. }
  split; [apply Hflip|]. split; [apply Hother|]. split.
  - intros k. destruct (strict_eq k accountId) eqn:E.
    + apply strict_eq_true in E. subst k.
      rewrite !Hflip, negb_involutive. reflexivity.
    + apply strict_eq_false in E. rewrite !Hother by exact E. reflexivity.
  - intros Hnd. unfold Shell.toggleMask_update.
    destruct (Set_has prev accountId) eqn:E.
    + unfold Set_delete. apply NoDup_filter. exact Hnd.
    + unfold Set_add. rewrite E.
      apply NoDup_app; [exact Hnd | repeat constructor; simpl; tauto|].
      intros x Hx [Heq|[]]. subst x.
      unfold Set_has in E.
      assert (existsb (fun y => strict_eq y accountId) prev = true) as Hc
          by (apply existsb_exists; exists accountId; split;
              [exact Hx | apply strict_eq_refl]).
      congruence.
Qed.

Lemma toggleMask_flips_one_account_witness :
  Shell.toggleMask_update (str "B") [str "A"; str "B"; str "C"]
  = [str "A"; str "C"]
  /\ NoDup (Shell.toggleMask_update (str "B") [str "A"; str "C"]).
Proof.
  split; [reflexivity|].
  apply (proj2 (proj2 (proj2
    (toggleMask_flips_one_account (str "B") [str "A"; str "C"])))).
  repeat constructor; simpl; intuition discriminate.
Defined.

Section ShellFacts.
Variable G : Type.
Variable gateway : forall c : Command, G -> Result (answer c) * G.

(** X19: [handleSwitch] decides on the process status of the render
    it was created in, not on the status it has just fetched.  When that
    render said that switching is not possible, it sends the process check
    and stops there, although the fresh status allows switching; when that
    render had no status or allowed switching, it sends [switch_account]
    although the fresh status forbids it. *)
Theorem handleSwitch_guards_on_rendered_status
  (rendered : Shell.State) (accountId : js_string) (g g1 g2 : G)
  (shown fresh : CodexProcessInfo) (e : js_error) :
  gateway check_codex_processes g = (Resolved fresh, g1) ->
  let r := run gateway (Shell.handleSwitch true rendered accountId)
             rendered g [] in
  (App.processInfo (Shell.app rendered) = Some shown ->
   can_switch shown = false ->
   can_switch fresh = true ->
   outcome r = Resolved tt
   /\ trace r = [Called check_codex_processes]
   /\ App.processInfo (Shell.app (final r)) = Some fresh
   /\ App.hook (Shell.app (final r)) = App.hook (Shell.app rendered))
  /\ ((App.processInfo (Shell.app rendered) = None
       \/ App.processInfo (Shell.app rendered) = Some shown
          /\ can_switch shown = true) ->
      can_switch fresh = false ->
      gateway (switch_account accountId) g1 = (Rejected e, g2) ->
      outcome r = Resolved tt
      /\ trace r = [Called check_codex_processes;
                    Called (switch_account accountId);
                    Logged (str "Failed to switch account:") e]
      /\ Shell.switchingId (final r) = None).
Proof.
  intros Hc r. subst r. unfold Shell.handleSwitch. split.
  - intros Hp Hs Hf. rewrite Hp, Hs. simpl. rewrite Hc. simpl.
    repeat split.
  - intros Hp Hf Hsw.
    destruct Hp as [Hp|[Hp Hs]]; rewrite Hp; rewrite ?Hs; simpl;
      rewrite Hc; simpl; rewrite Hsw; simpl; repeat split.
Qed.

(** X20: [handleSwitch] never rejects, whatever the backend answers to
    the process check, to the switch and to the reload, and it leaves
    [switchingId] null whenever it got past its guard. *)
Theorem handleSwitch_never_rejects
  (isTauri : bool) (rendered s : Shell.State) (accountId : js_string) (g : G) :
  let r := run gateway (Shell.handleSwitch isTauri rendered accountId) s g [] in
  outcome r = Resolved tt
  /\ existsb Polling.is_unhandled (trace r) = false
  /\ (match App.processInfo (Shell.app rendered) with
      | Some p => can_switch p = true
      | None => True
      end -> Shell.switchingId (final r) = None).
Proof.
  unfold Shell.handleSwitch.
  destruct (App.processInfo (Shell.app rendered)) as [p|];
    [destruct (can_switch p)|];
    destruct isTauri; simpl;
    repeat match goal with
           | |- context [gateway ?c ?x] =>
               destruct (gateway c x) as [[?|?] ?]; simpl
           end;
    repeat split; try discriminate; auto.
Qed.

Lemma handleDelete_first_click
  (isTauri : bool) (rendered s : Shell.State) (accountId : js_string)
  (g : G) :
  Shell.deleteConfirmId rendered <> Some accountId ->
  run gateway (Shell.handleDelete isTauri rendered accountId) s g []
  = {| outcome := Resolved tt;
       final :=
         Shell.with_timeouts
           (Shell.timeouts s
            ++ [{| Shell.timeout_delay := 3000;
                   Shell.timeout_action := Shell.clearDeleteConfirm |}])
           (Shell.with_deleteConfirmId (Some accountId) s);
       backend := g; trace := [] |}.
Proof.
  intros Hne. unfold Shell.handleDelete.
  destruct (Shell.deleteConfirmId rendered) as [d|] eqn:Hd; simpl.
  - assert (strict_eq d accountId = false) as ->
        by (apply strict_eq_false; congruence).
    reflexivity.
  - reflexivity.
Qed.

(** X21: deleting takes two clicks.  A click on an account that is
    not awaiting confirmation sends nothing: it marks the account as
    awaiting confirmation and arms a timeout of 3000 ms that clears the
    mark.  A click on the account that is awaiting confirmation sends
    [delete_account]; if the backend refuses, the refusal is logged, the
    call ends normally and the mark stays. *)
Theorem delete_takes_two_clicks
  (isTauri : bool) (rendered : Shell.State) (accountId : js_string)
  (g g1 : G) (e : js_error) :
  (Shell.deleteConfirmId rendered <> Some accountId ->
   run gateway (Shell.handleDelete isTauri rendered accountId) rendered g []
   = {| outcome := Resolved tt;
        final :=
          Shell.with_timeouts
            (Shell.timeouts rendered
             ++ [{| Shell.timeout_delay := 3000;
                    Shell.timeout_action := Shell.clearDeleteConfirm |}])
            (Shell.with_deleteConfirmId (Some accountId) rendered);
        backend := g; trace := [] |})
  /\ (Shell.deleteConfirmId rendered = Some accountId ->
      gateway (delete_account accountId) g = (Rejected e, g1) ->
      run gateway (Shell.handleDelete isTauri rendered accountId) rendered g []
      = {| outcome := Resolved tt; final := rendered; backend := g1;
           trace := [Called (delete_account accountId);
                     Logged (str "Failed to delete account:") e] |}).
Proof.
  split.
  - apply handleDelete_first_click.
  - intros Heq Hg. unfold Shell.handleDelete.
    rewrite Heq, strict_eq_refl. simpl. rewrite Hg. simpl.
    destruct rendered; reflexivity.
Qed.

(** X22: the timeout of a first click is not tied to its account.
    After a click on A and then a click on B, both timeouts are pending
    and B awaits confirmation; when A's timeout comes due it clears the
    mark of B, so that the next click on B deletes nothing and asks for
    confirmation again. *)
Theorem stale_timeout_clears_later_confirmation
  (isTauri : bool) (s0 : Shell.State) (idA idB : js_string) (g : G) :
  idA <> idB ->
  Shell.deleteConfirmId s0 = None ->
  Shell.timeouts s0 = [] ->
  let s1 := final (run gateway (Shell.handleDelete isTauri s0 idA) s0 g []) in
  let s2 := final (run gateway (Shell.handleDelete isTauri s1 idB) s1 g []) in
  let s3 := Shell.expire 0 s2 in
  let r := run gateway (Shell.handleDelete isTauri s3 idB) s3 g [] in
  Shell.deleteConfirmId s2 = Some idB
  /\ List.length (Shell.timeouts s2) = 2
  /\ Shell.deleteConfirmId s3 = None
  /\ List.length (Shell.timeouts s3) = 1
  /\ trace r = []
  /\ Shell.deleteConfirmId (final r) = Some idB.
Proof.
  intros Hne Hd Ht s1 s2 s3 r. subst r s3 s2 s1.
  rewrite (@handleDelete_first_click isTauri s0 s0 idA g)
    by (rewrite Hd; discriminate).
  rewrite (@handleDelete_first_click isTauri _ _ idB g)
    by (simpl; congruence).
  rewrite (@handleDelete_first_click isTauri _ _ idB g)
    by (unfold Shell.expire; simpl; rewrite Ht; simpl; discriminate).
  unfold Shell.expire; simpl. rewrite Ht. simpl.
  repeat split.
Qed.

(** X23: "Refresh All" always takes its spinner down.  When the
    refresh goes through, the success toast is up and a timeout of 2000 ms
    is armed that takes it down; when the refresh fails, the failure is
    thrown out of the handler, there is no toast and no timeout. *)
Theorem refresh_all_toast_only_on_success
  (s : Shell.State) (g : G) :
  let r := run gateway Shell.handleRefresh s g [] in
  Shell.isRefreshing (final r) = false
  /\ match fst (gateway refresh_all_accounts_usage g) with
     | Resolved usageList =>
         outcome r = Resolved tt
         /\ Shell.refreshSuccess (final r) = true
         /\ Shell.timeouts (final r)
            = Shell.timeouts s
              ++ [{| Shell.timeout_delay := 2000;
                     Shell.timeout_action := Shell.clearRefreshSuccess |}]
         /\ Shell.refreshSuccess
              (Shell.expire (List.length (Shell.timeouts s)) (final r))
            = false
     | Rejected e =>
         outcome r = Rejected e
         /\ Shell.refreshSuccess (final r) = false
         /\ Shell.timeouts (final r) = Shell.timeouts s
         /\ App.hook (Shell.app (final r)) = App.hook (Shell.app s)
     end.
Proof.
  simpl.
  destruct (gateway refresh_all_accounts_usage g) as [[ul|e] g']; simpl;
    repeat split.
  unfold Shell.expire; simpl.
  rewrite nth_error_app2 by lia.
  replace (List.length (Shell.timeouts s) - List.length (Shell.timeouts s))
    with 0 by lia.
  reflexivity.
Qed.
End ShellFacts.

Lemma handleSwitch_guards_on_rendered_status_witness :
  let rendered := SampleShell.shell (Some SampleShell.busy) in
  let r := run Script.backend (Shell.handleSwitch true rendered (str "B"))
             rendered
             [Script.Accept check_codex_processes SampleShell.quiet;
              Script.Accept (switch_account (str "B")) tt] [] in
  trace r = [Called check_codex_processes]
  /\ App.processInfo (Shell.app (final r)) = Some SampleShell.quiet.
Proof.
  pose proof (proj1
    (@handleSwitch_guards_on_rendered_status _ Script.backend
       (SampleShell.shell (Some SampleShell.busy)) (str "B")
       [Script.Accept check_codex_processes SampleShell.quiet;
        Script.Accept (switch_account (str "B")) tt]
       _ [] SampleShell.busy SampleShell.quiet Sample.refused eq_refl)
    eq_refl eq_refl eq_refl) as H.
  split; [exact (proj1 (proj2 H)) | exact (proj1 (proj2 (proj2 H)))].
Defined.

Lemma handleSwitch_never_rejects_witness :
  let rendered := SampleShell.shell None in
  Shell.switchingId
    (final (run Script.backend (Shell.handleSwitch true rendered (str "B"))
              rendered [] []))
  = None.
Proof.
  exact (proj2 (proj2
    (@handleSwitch_never_rejects _ Script.backend true
       (SampleShell.shell None) (SampleShell.shell None) (str "B") [])) I).
Defined.

Lemma delete_takes_two_clicks_witness :
  let s := SampleShell.shell None in
  let once := run Script.backend (Shell.handleDelete true s (str "B")) s
                [Script.Accept (delete_account (str "B")) tt] [] in
  trace once = []
  /\ Shell.deleteConfirmId (final once) = Some (str "B").
Proof.
  pose proof (proj1
    (@delete_takes_two_clicks _ Script.backend true (SampleShell.shell None)
       (str "B") [Script.Accept (delete_account (str "B")) tt] []
       Sample.refused)) as H.
  cbv zeta. rewrite H by discriminate. split; reflexivity.
Defined.

Lemma stale_timeout_clears_later_confirmation_witness :
  let s0 := SampleShell.shell None in
  let s1 := final (run Script.backend (Shell.handleDelete true s0 (str "A")) s0 [] []) in
  let s2 := final (run Script.backend (Shell.handleDelete true s1 (str "B")) s1 [] []) in
  Shell.deleteConfirmId s2 = Some (str "B")
  /\ Shell.deleteConfirmId (Shell.expire 0 s2) = None.
Proof.
  pose proof (@stale_timeout_clears_later_confirmation _ Script.backend true
                (SampleShell.shell None) (str "A") (str "B") []) as H.
  cbv zeta in H.
  destruct H as (H1 & _ & H3 & _);
    [vm_compute; discriminate | reflexivity | reflexivity |].
  split; [exact H1 | exact H3].
Defined.

(** * Properties of the account card *)

Section CardFacts.
Variable G : Type.
Variable gateway : forall c : Command, G -> Result (answer c) * G.
Variable isTauri : bool.
Variable account : AccountWithUsage.

(** X24: when the typed name is blank, or is the account's name once
    trimmed, [handleRename] sends nothing: it puts the account's name back
    in the field and leaves the edit. *)
Theorem rename_to_blank_or_same_name_sends_nothing
  (c : Card.State) (w : CardInApp.State) (g : G) :
  forallb isWhiteSpace (Card.editName c) = true
  \/ trim (Card.editName c) = name (info account) ->
  run gateway (CardInApp.handleRename isTauri account c) w g []
  = {| outcome := Resolved tt;
       final := (fst w,
                 {| Card.isRefreshing := Card.isRefreshing (snd w);
                    Card.lastRefresh := Card.lastRefresh (snd w);
                    Card.isEditing := false;
                    Card.editName := name (info account) |});
       backend := g; trace := [] |}.
Proof.
  intros H. unfold CardInApp.handleRename, Card.handleRename.
  rewrite truthy_trim.
  destruct H as [H|H].
  - rewrite H. reflexivity.
  - rewrite H, strict_eq_refl, andb_false_r. reflexivity.
Qed.

(** X25: with a new name, [handleRename] sends [rename_account] for
    the card's account with the name trimmed.  If the backend refuses,
    the field goes back to the account's name and the call ends normally;
    either way the edit is left, no failure reaches the caller, and the
    registry changes only through the reload of an accepted rename. *)
Theorem rename_sends_trimmed_name_and_never_rejects
  (c : Card.State) (w : CardInApp.State) (g : G) :
  forallb isWhiteSpace (Card.editName c) = false ->
  trim (Card.editName c) <> name (info account) ->
  let cmd := rename_account (id (info account)) (trim (Card.editName c)) in
  let r := run gateway (CardInApp.handleRename isTauri account c) w g [] in
  outcome r = Resolved tt
  /\ hd_error (trace r) = Some (Called cmd)
  /\ Card.isEditing (snd (final r)) = false
  /\ match fst (gateway cmd g) with
     | Resolved _ =>
         Card.editName (snd (final r)) = Card.editName (snd w)
         /\ calls (trace r)
            = if isTauri then [cmd; list_accounts] else [cmd]
     | Rejected e =>
         Card.editName (snd (final r)) = name (info account)
         /\ trace r = [Called cmd]
         /\ fst (final r) = fst w
     end.
Proof.
  intros Hn Hd cmd r. subst r cmd.
  unfold CardInApp.handleRename, Card.handleRename.
  rewrite truthy_trim, Hn.
  apply strict_eq_false in Hd. rewrite Hd. simpl.
  destruct (gateway (rename_account _ _) g) as [[[]|e] g1]; simpl.
  - destruct isTauri; simpl.
    + destruct (gateway list_accounts g1) as [[l|e] g2]; simpl; repeat split.
    + repeat split.
  - destruct w; repeat split.
Qed.

End CardFacts.

Lemma rename_to_blank_or_same_name_sends_nothing_witness :
  let account := Sample.entry "A" true None None in
  let r := run Script.backend
             (CardInApp.handleRename true account (editing "  A "))
             (Sample.registry [account], editing "  A ")
             [Script.Accept (rename_account [] []) tt] [] in
  trace r = [] /\ Card.editName (snd (final r)) = str "A".
Proof.
  cbv zeta.
  rewrite (@rename_to_blank_or_same_name_sends_nothing _ Script.backend true
             (Sample.entry "A" true None None) (editing "  A ")
             (Sample.registry [Sample.entry "A" true None None], editing "  A ")
             [Script.Accept (rename_account [] []) tt]
             (or_intror eq_refl)).
  split; reflexivity.
Defined.

Lemma rename_sends_trimmed_name_and_never_rejects_witness :
  let account := Sample.entry "A" true None None in
  let r := run Script.backend
             (CardInApp.handleRename true account (editing " work "))
             (Sample.registry [account], editing " work ")
             [Script.Refuse (rename_account [] []) (Thrown (str "taken"))] [] in
  outcome r = Resolved tt
  /\ hd_error (trace r)
     = Some (Called (rename_account (str "A") (str "work")))
  /\ Card.isEditing (snd (final r)) = false.
Proof.
  pose proof (@rename_sends_trimmed_name_and_never_rejects _ Script.backend
                true (Sample.entry "A" true None None) (editing " work ")
                (Sample.registry [Sample.entry "A" true None None],
                 editing " work ")
                [Script.Refuse (rename_account [] []) (Thrown (str "taken"))]
                eq_refl) as H.
  cbv zeta in H. destruct H as (H1 & H2 & H3 & _).
  - vm_compute. discriminate.
  - repeat split; assumption.
Defined.

(** * Properties of the theme provider *)

Lemma Map_get_set_same {V : Type} (m : Map V) (k : js_string) (v : V) :
  Map_get (Map_set m k v) k = Some v.
Proof. rewrite Map_get_set, strict_eq_refl. reflexivity. Qed.

(** X27: a theme that arrives by a storage event is checked: the event
    changes the theme only when it is for the theme key and carries
    "light", "dark" or "system", and it never writes to storage.  The theme
    read from storage at start-up is not checked: any stored text that is
    not empty becomes the theme, and, unless it is "system", the resolved
    theme too. *)
Theorem stored_theme_checked_on_event_only
  (w : Theme.World) (key newValue : option js_string) (v : js_string) :
  (key = Some Theme.STORAGE_KEY -> newValue = Some v ->
   In v [Theme.light; Theme.dark; Theme.system] ->
   Theme.handleStorageChange key newValue w = Theme.setThemeState v w)
  /\ (key <> Some Theme.STORAGE_KEY
      \/ newValue = None
      \/ newValue = Some v
         /\ ~ In v [Theme.light; Theme.dark; Theme.system] ->
      Theme.handleStorageChange key newValue w = w)
  /\ Theme.localStorage (Theme.handleStorageChange key newValue w)
     = Theme.localStorage w
  /\ (Map_get (Theme.localStorage w) Theme.STORAGE_KEY = Some v ->
      truthy v = true -> v <> Theme.system ->
      Theme.theme (Theme.initEffect w) = v
      /\ Theme.resolvedTheme (Theme.initEffect w) = v
      /\ Theme.darkClass (Theme.applyEffect (Theme.initEffect w))
         = strict_eq v Theme.dark).
Proof.
  split; [|split; [|split]].
  - intros -> -> Hin. unfold Theme.handleStorageChange.
    rewrite strict_eq_refl.
    destruct Hin as [<-|[<-|[<-|[]]]]; reflexivity.
  - intros H. unfold Theme.handleStorageChange.
    destruct key as [k|]; [|reflexivity].
    destruct newValue as [t|]; [|reflexivity].
    destruct H as [H|[H|[H Hnot]]]; [|discriminate|].
    + assert (strict_eq k Theme.STORAGE_KEY = false) as ->
          by (apply strict_eq_false; congruence).
      reflexivity.
    + injection H as ->.
      assert (existsb (strict_eq v) [Theme.light; Theme.dark; Theme.system]
              = false) as ->.
      { apply not_true_is_false. intros E.
        apply existsb_exists in E. destruct E as (x & Hx & E).
        apply strict_eq_true in E. subst x. exact (Hnot Hx). }
      rewrite andb_false_r. reflexivity.
  - unfold Theme.handleStorageChange.
    destruct key as [k|]; [|reflexivity].
    destruct newValue as [t|]; [|reflexivity].
    destruct (_ && _); reflexivity.
  - intros Hs Ht Hn. unfold Theme.initEffect, Theme.getStoredTheme.
    rewrite Hs, Ht.
    apply strict_eq_false in Hn. rewrite Hn. simpl. repeat split.
Qed.

Lemma stored_theme_checked_on_event_only_witness :
  let w := Theme.initial [(Theme.STORAGE_KEY, str "blue")] true true in
  Theme.theme (Theme.initEffect w) = str "blue"
  /\ Theme.darkClass (Theme.applyEffect (Theme.initEffect w)) = false
  /\ Theme.handleStorageChange (Some Theme.STORAGE_KEY) (Some (str "blue"))
       (Theme.initEffect w)
     = Theme.initEffect w.
Proof.
  pose proof (@stored_theme_checked_on_event_only
                (Theme.initial [(Theme.STORAGE_KEY, str "blue")] true true)
                (Some Theme.STORAGE_KEY) (Some (str "blue")) (str "blue"))
    as (_ & _ & _ & H).
  destruct H as (H1 & _ & H3);
    [reflexivity | reflexivity | vm_compute; discriminate |].
  split; [exact H1|]. split; [exact H3|].
  apply (proj1 (proj2
    (@stored_theme_checked_on_event_only
       (Theme.initEffect
          (Theme.initial [(Theme.STORAGE_KEY, str "blue")] true true))
       (Some Theme.STORAGE_KEY) (Some (str "blue")) (str "blue")))).
  right. right. split; [reflexivity|].
  vm_compute. intuition discriminate.
Defined.

(** X28: once mounted and with the resolved theme up to date, a toggle
    followed by the effects it triggers, the one that resolves the theme
    and then the one that applies the class, leaves the theme, the stored theme and the resolved theme all equal to
    "light" if the resolved theme was "dark" and to "dark" otherwise, with
    the [dark] class set accordingly; the theme is then never "system", so
    the system preference no longer decides; and a second toggle brings a
    resolved theme of "dark" or "light" back. *)
Theorem toggle_switches_between_dark_and_light (w : Theme.World) :
  Theme.mounted w = true ->
  Theme.resolveEffect w = w ->
  let round x := Theme.applyEffect (Theme.resolveEffect (Theme.toggleTheme x)) in
  let next := if strict_eq (Theme.resolvedTheme w) Theme.dark
              then Theme.light else Theme.dark in
  Theme.theme (round w) = next
  /\ Theme.resolvedTheme (round w) = next
  /\ Map_get (Theme.localStorage (round w)) Theme.STORAGE_KEY = Some next
  /\ Theme.darkClass (round w)
     = negb (strict_eq (Theme.resolvedTheme w) Theme.dark)
  /\ (forall b,
        Theme.resolvedTheme
          (Theme.resolveEffect
             {| Theme.theme := Theme.theme (round w);
                Theme.resolvedTheme := Theme.resolvedTheme (round w);
                Theme.mounted := Theme.mounted (round w);
                Theme.localStorage := Theme.localStorage (round w);
                Theme.prefersDark := b;
                Theme.darkClass := Theme.darkClass (round w) |})
        = next)
  /\ (Theme.resolvedTheme w = Theme.dark \/ Theme.resolvedTheme w = Theme.light ->
      Theme.resolvedTheme (round (round w)) = Theme.resolvedTheme w).
Proof.
  destruct w as [t rt m ls pd dc]. simpl. intros -> _.
  unfold Theme.applyEffect, Theme.resolveEffect, Theme.toggleTheme,
    Theme.setTheme; simpl.
  destruct (strict_eq rt Theme.dark) eqn:E; simpl;
    rewrite Map_get_set_same;
    (split; [reflexivity|]); (split; [reflexivity|]);
    (split; [reflexivity|]); (split; [reflexivity|]);
    (split; [intros b; reflexivity|]).
  - intros _. apply strict_eq_true in E. symmetry. exact E.
  - intros [H|H]; [rewrite H in E; discriminate | symmetry; exact H].
Qed.

Lemma toggle_switches_between_dark_and_light_witness :
  let w := Theme.initEffect (Theme.initial [] true false) in
  let round x := Theme.applyEffect (Theme.resolveEffect (Theme.toggleTheme x)) in
  Theme.resolvedTheme w = Theme.dark
  /\ Theme.theme (round w) = Theme.light
  /\ Theme.resolvedTheme (round (round w)) = Theme.dark.
Proof.
  pose proof (@toggle_switches_between_dark_and_light
                (Theme.initEffect (Theme.initial [] true false))
                eq_refl eq_refl) as H.
  cbv zeta in H. destruct H as (H1 & _ & _ & _ & _ & H6).
  split; [reflexivity|]. split; [exact H1|].
  exact (H6 (or_introl eq_refl)).
Defined.

(** * Properties of the notification settings form *)

Lemma small_numbers_acceptable (n : Z) :
  (0 <= n <= 100)%Z -> Notif.acceptable (Some (number_of_Z n)).
Proof.
  intros Hn.
  assert (Hall : forallb
                   (fun k => let v := number_of_Z (Z.of_nat k) in
                             negb (PrimFloat.is_nan v)
                             && negb (PrimFloat.ltb v 0)
                             && negb (PrimFloat.ltb 100 v))
                   (seq 0 101) = true)
    by (vm_compute; reflexivity).
  rewrite forallb_forall in Hall.
  specialize (Hall (Z.to_nat n)).
  rewrite Z2Nat.id in Hall by lia.
  assert (Hin : In (Z.to_nat n) (seq 0 101)) by (apply in_seq; lia).
  specialize (Hall Hin). cbv zeta in Hall.
  rewrite !andb_true_iff, !negb_true_iff in Hall.
  unfold Notif.acceptable. tauto.
Qed.

Lemma updateThreshold_cases (f : Notif.ThresholdField) (value : js_string)
  (st : Notif.State) :
  (Notif.settings (Notif.updateThreshold f value st) = Notif.settings st
   /\ Notif.field_error f (Notif.updateThreshold f value st) <> Some [])
  \/ (exists t,
        Notif.acceptable t
        /\ Notif.updateThreshold f value st
           = Notif.setFieldError f [] (Notif.updateThresholdField f t st)).
Proof.
  unfold Notif.updateThreshold.
  destruct value as [|c value]; [right; exists None; split; [exact I|reflexivity]|].
  destruct (PrimFloat.is_nan (parseInt10 (c :: value))) eqn:En.
  - left. split; [reflexivity|].
    unfold Notif.field_error, Notif.setFieldError; simpl.
    rewrite Map_get_set_same. discriminate.
  - destruct (PrimFloat.ltb (parseInt10 (c :: value)) 0) eqn:E0; simpl.
    + left. split; [reflexivity|].
      unfold Notif.field_error, Notif.setFieldError; simpl.
      rewrite Map_get_set_same. discriminate.
    + destruct (PrimFloat.ltb 100 (parseInt10 (c :: value))) eqn:E1.
      * left. split; [reflexivity|].
        unfold Notif.field_error, Notif.setFieldError; simpl.
        rewrite Map_get_set_same. discriminate.
      * right. exists (Some (parseInt10 (c :: value))).
        split; [|reflexivity]. unfold Notif.acceptable. tauto.
Qed.

Lemma apply_edit_well_formed (st : Notif.State) (e : FormEdit) :
  well_formed (Notif.settings st) ->
  well_formed (Notif.settings (apply_edit st e)).
Proof.
  intros (Ht & Hn & Hl). destruct e as [f value|value]; simpl.
  - destruct (updateThreshold_cases f value st) as [[-> _]|(t & Hacc & ->)].
    + repeat split; assumption.
    + split; [|split; destruct f; assumption].
      intros f'. pose proof (Ht f') as H.
      destruct f, f'; simpl in *; assumption.
  - unfold Notif.interval_onChange.
    destruct (PrimFloat.is_nan (parseInt10 value)) eqn:En; simpl;
      [repeat split; assumption|].
    destruct (PrimFloat.leb 1 (parseInt10 value)) eqn:El;
      [|repeat split; assumption].
    split; [exact Ht|]. split; assumption.
Qed.

(** X29: whatever is typed into the settings form, in any order, the
    thresholds it holds stay disabled or between 0 and 100 and the interval
    stays a number not below 1.  An edit of a threshold that is turned
    down changes the message under the field and nothing in the settings;
    an edit that starts with an integer from 0 to 100 stores that integer
    and clears the message; an emptied field disables the threshold. *)
Theorem form_edits_keep_settings_well_formed
  (st : Notif.State) (edits : list FormEdit)
  (f : Notif.ThresholdField) (value : js_string) (n : Z) :
  well_formed (Notif.settings Notif.initial)
  /\ (well_formed (Notif.settings st) ->
      well_formed (Notif.settings (fold_left apply_edit edits st)))
  /\ (Notif.field_error f (Notif.updateThreshold f value st) <> Some [] ->
      Notif.settings (Notif.updateThreshold f value st) = Notif.settings st)
  /\ (value <> [] -> scan_integer value = Some (false, n) ->
      (0 <= n <= 100)%Z ->
      Notif.threshold f (Notif.settings (Notif.updateThreshold f value st))
      = Some (number_of_Z n)
      /\ Notif.field_error f (Notif.updateThreshold f value st) = Some [])
  /\ (value <> [] -> scan_integer value = None ->
      Notif.settings (Notif.updateThreshold f value st) = Notif.settings st
      /\ Notif.field_error f (Notif.updateThreshold f value st)
         = Some (str "Invalid number"))
  /\ Notif.threshold f (Notif.settings (Notif.updateThreshold f [] st)) = None.
Proof.
  split; [|split; [|split; [|split; [|split]]]].
  - split; [intros []; simpl; repeat split|split; reflexivity].
  - revert st. induction edits as [|e edits IH]; intros st H; [exact H|].
    simpl. apply IH. apply apply_edit_well_formed. exact H.
  - intros Hmsg.
    destruct (updateThreshold_cases f value st) as [[H _]|(t & _ & H)];
      [exact H|].
    exfalso. apply Hmsg. rewrite H.
    unfold Notif.field_error, Notif.setFieldError; simpl.
    apply Map_get_set_same.
  - intros Hv Hs Hn. unfold Notif.updateThreshold.
    destruct value as [|c value]; [congruence|].
    unfold parseInt10. rewrite Hs.
    destruct (@small_numbers_acceptable n Hn) as (-> & -> & ->). simpl.
    unfold Notif.field_error, Notif.setFieldError; simpl.
    rewrite Map_get_set_same. destruct f; split; reflexivity.
  - intros Hv Hs. unfold Notif.updateThreshold.
    destruct value as [|c value]; [congruence|].
    unfold parseInt10. rewrite Hs. simpl.
    unfold Notif.field_error, Notif.setFieldError; simpl.
    rewrite Map_get_set_same. split; reflexivity.
  - destruct f; reflexivity.
Qed.

Lemma form_edits_keep_settings_well_formed_witness :
  let typed := [EditThreshold Notif.primary (str " 42px");
                EditThreshold Notif.secondary (str "250");
                EditThreshold Notif.credits (str "abc");
                EditInterval (str "0")] in
  let st := fold_left apply_edit typed Notif.initial in
  well_formed (Notif.settings st)
  /\ Notif.settings st
     = {| Notif.enabled := false;
          Notif.primary_threshold := Some 42%float;
          Notif.secondary_threshold := Some 80%float;
          Notif.credits_threshold := Some 20%float;
          Notif.min_interval_minutes := 60%float |}
  /\ Notif.field_error Notif.secondary st = Some (str "Must be 0-100")
  /\ Notif.field_error Notif.credits st = Some (str "Invalid number").
Proof.
  pose proof (@form_edits_keep_settings_well_formed Notif.initial
                [EditThreshold Notif.primary (str " 42px");
                 EditThreshold Notif.secondary (str "250");
                 EditThreshold Notif.credits (str "abc");
                 EditInterval (str "0")]
                Notif.primary (str " 42px") 42%Z) as (H0 & H1 & _).
  split; [exact (H1 H0)|].
  split; [vm_compute; reflexivity|]. split; vm_compute; reflexivity.
Defined.
